(** * Lead-intake pipeline: a shallow embedding of the two Netlify functions

    - [TradeAppraisal]   : netlify/functions/trade-appraisal.js
                           (the Form Intake Handler)
    - [SubmissionCreated]: netlify/functions/submission-created.js
                           (the Submission Relay Handler)

    JavaScript strings are modelled as [string]; a character stands for the
    code unit of the same number, and the string built-ins below are the
    JavaScript ones on ASCII text (white space is TAB, LF, VT, FF, CR and
    SPACE; letters are a-z and A-Z).  The library calls the functions make
    (JSON.parse, Busboy, SendGrid, fetch, Buffer base64, the clock) are
    section variables. *)

From Stdlib Require Import Ascii.
From stdpp Require Import base strings gmap list sorting pretty.

(** ** JavaScript values and built-ins *)

Module JS.

Inductive error : Type :=
| TypeError (msg : string)
| Error (msg : string).

(** The completion of an expression: a value or a thrown exception. *)
Inductive outcome (A : Type) : Type :=
| Ret (a : A)
| Throw (e : error).
Arguments Ret {A} a.
Arguments Throw {A} e.

Definition bind {A B} (m : outcome A) (k : A → outcome B) : outcome B :=
  match m with
  | Ret a => k a
  | Throw e => Throw e
  end.

(** What JSON.parse and a form parser can put in a field.  A missing
    property ([undefined]) is [None] at the lookup.  Numbers are the
    integers. *)
#[local] Unset Elimination Schemes.
Inductive value : Type :=
| VNull
| VBool (b : bool)
| VNum (n : Z)
| VStr (s : string)
| VArr (l : list value)
| VObj (o : list (string * value)).
#[local] Set Elimination Schemes.

Definition is_string (v : option value) : bool :=
  match v with
  | Some (VStr _) => true
  | _ => false
  end.

(** ToBoolean: [undefined], [null], [false], [0] and the empty string are
    falsy. *)
Definition truthy (v : option value) : bool :=
  match v with
  | None | Some VNull => false
  | Some (VBool b) => b
  | Some (VNum n) => negb (n =? 0)%Z
  | Some (VStr s) => negb (String.eqb s EmptyString)
  | Some (VArr _) | Some (VObj _) => true
  end.

(** [a || b] on property reads. *)
Definition or_else (a b : option value) : option value :=
  if truthy a then a else b.

Fixpoint join (sep : string) (l : list string) : string :=
  match l with
  | [] => EmptyString
  | [x] => x
  | x :: l' => x +:+ sep +:+ join sep l'
  end.

(** [String(v)] *)
Fixpoint to_String (v : value) : string :=
  match v with
  | VNull => "null"
  | VBool true => "true"
  | VBool false => "false"
  | VNum n => pretty n
  | VStr s => s
  | VArr l =>
      join ","
        (map (λ e, match e with VNull => EmptyString | _ => to_String e end) l)
  | VObj _ => "[object Object]"
  end.

(** [String(v)] where [v] may be [undefined]. *)
Definition String_ (v : option value) : string :=
  match v with
  | None => "undefined"
  | Some v => to_String v
  end.

(** *** String.prototype *)

Definition is_ws (c : ascii) : bool := Ascii.is_space c.

Definition is_digit (c : ascii) : bool :=
  let n := N_of_ascii c in ((48 <=? n) && (n <=? 57))%N.

Fixpoint trimStart (s : string) : string :=
  match s with
  | EmptyString => EmptyString
  | String c s' => if is_ws c then trimStart s' else s
  end.

Fixpoint trimEnd (s : string) : string :=
  match s with
  | EmptyString => EmptyString
  | String c s' =>
      match trimEnd s' with
      | EmptyString => if is_ws c then EmptyString else String c EmptyString
      | r => String c r
      end
  end.

Definition trim (s : string) : string := trimEnd (trimStart s).

Fixpoint filter_chars (p : ascii → bool) (s : string) : string :=
  match s with
  | EmptyString => EmptyString
  | String c s' => if p c then String c (filter_chars p s') else filter_chars p s'
  end.

(** [s.replace(/c/g, r)] for a one-character pattern. *)
Fixpoint replace_all (c : ascii) (r : string) (s : string) : string :=
  match s with
  | EmptyString => EmptyString
  | String d s' =>
      if Ascii.eqb d c then r +:+ replace_all c r s'
      else String d (replace_all c r s')
  end.

Definition upper (c : ascii) : ascii :=
  let n := N_of_ascii c in
  if ((97 <=? n) && (n <=? 122))%N then ascii_of_N (n - 32) else c.

Definition lower (c : ascii) : ascii :=
  let n := N_of_ascii c in
  if ((65 <=? n) && (n <=? 90))%N then ascii_of_N (n + 32) else c.

Fixpoint map_chars (f : ascii → ascii) (s : string) : string :=
  match s with
  | EmptyString => EmptyString
  | String c s' => String (f c) (map_chars f s')
  end.

Definition toUpperCase : string → string := map_chars upper.
Definition toLowerCase : string → string := map_chars lower.

(** [s.slice(0, n)] *)
Fixpoint slice0 (n : nat) (s : string) : string :=
  match n, s with
  | S n', String c s' => String c (slice0 n' s')
  | _, _ => EmptyString
  end.

Definition startsWith (s p : string) : bool := String.prefix p s.

Fixpoint includes (s p : string) : bool :=
  String.prefix p s ||
  match s with
  | EmptyString => false
  | String _ s' => includes s' p
  end.

(** [s.split(",")] *)
Fixpoint split_go (c : ascii) (cur : string) (s : string) : list string :=
  match s with
  | EmptyString => [String.rev cur]
  | String d s' =>
      if Ascii.eqb d c then String.rev cur :: split_go c EmptyString s'
      else split_go c (String d cur) s'
  end.
Definition split (c : ascii) (s : string) : list string :=
  split_go c EmptyString s.

(** [l.filter(Boolean)] on strings. *)
Definition filter_Boolean (l : list string) : list string :=
  filter (λ s, s ≠ EmptyString) l.

(** A string that is empty or starts with a character that is not white
    space. *)
Definition starts_clean (s : string) : Prop :=
  match s with
  | EmptyString => True
  | String c _ => is_ws c = false
  end.

(** Every character of [s] satisfies [p]. *)
Fixpoint all_chars (p : ascii → bool) (s : string) : Prop :=
  match s with
  | EmptyString => True
  | String c s' => p c = true ∧ all_chars p s'
  end.

End JS.

(** ** netlify/functions/trade-appraisal.js *)

Module TradeAppraisal.
Import JS.

(** A raw fields map: the object JSON.parse returned or Busboy filled. *)
Abbreviation fields := (gmap string value).

(** [const safe = (v) => (typeof v === "string" ? v.trim() : "")] *)
Definition safe (v : option value) : string :=
  match v with
  | Some (VStr s) => JS.trim s
  | _ => EmptyString
  end.

(** [const digits = (v) => safe(v).replace(/\D/g, "")] : every character
    that is not a digit is replaced by nothing. *)
Definition digits (v : option value) : string :=
  filter_chars is_digit (safe v).


(** [String(s).replace(/&/g, "&amp;").replace(/</g, "&lt;").replace(/>/g, "&gt;")] *)
Definition escape (s : string) : string :=
  replace_all ">" "&gt;" (replace_all "<" "&lt;" (replace_all "&" "&amp;" s)).

Record Lead : Type := mkLead {
  name : string;
  email : string;
  phone : string;
  vin : string;
  year : string;
  make : string;
  model : string;
  trim : string;
  mileage : string;
  extColor : string;
  intColor : string;
  referrer : string;
  landingPage : string;
  submittedAt : string;
}.

(** [x.toUpperCase()] : a method String.prototype has and no other value
    JSON.parse produces has, so the call throws on a non-string. *)
Definition call_toUpperCase (x : option value) : outcome string :=
  match x with
  | Some (VStr s) => Ret (toUpperCase s)
  | _ => Throw (TypeError "toUpperCase is not a function")
  end.

Section normalize.
(** [new Date().toISOString()] at the time of the call. *)
Variable now : string.

Definition normalizeLead (src : fields) : outcome Lead :=
  let name_ := safe (src !! "name") in
  let email_ := safe (src !! "email") in
  let phone_ := slice0 15 (digits (or_else (src !! "phoneRaw") (src !! "phone"))) in
  bind (call_toUpperCase (or_else (src !! "vin") (Some (VStr EmptyString))))
    (λ up,
      Ret {| name := name_;
             email := email_;
             phone := phone_;
             vin := safe (Some (VStr up));
             year := safe (src !! "year");
             make := safe (src !! "make");
             model := safe (src !! "model");
             trim := safe (src !! "trim");
             mileage := safe (src !! "mileage");
             extColor := safe (src !! "extColor");
             intColor := safe (src !! "intColor");
             referrer := safe (src !! "referrer");
             landingPage := safe (src !! "landingPage");
             submittedAt := now |}).

End normalize.

(** *** buildEmailBodies *)

Definition preferred : list string :=
  [ "name"; "email"; "phone"; "vin"; "year"; "make"; "model"; "trim"; "mileage";
    "extColor"; "intColor"; "title"; "keys"; "owners"; "accident"; "accidentRepair";
    "warnings"; "mech"; "cosmetic"; "interior"; "mods"; "smells"; "service";
    "tires"; "brakes"; "wear"; "utmSource"; "utmMedium"; "utmCampaign"; "utmTerm";
    "utmContent"; "referrer"; "landingPage"; "submittedAt" ].

(** The lead as the object the spread [{ ...lead }] reads. *)
Definition lead_obj (lead : Lead) : fields :=
  list_to_map
    [ ("name", VStr (name lead)); ("email", VStr (email lead));
      ("phone", VStr (phone lead)); ("vin", VStr (vin lead));
      ("year", VStr (year lead)); ("make", VStr (make lead));
      ("model", VStr (model lead)); ("trim", VStr (trim lead));
      ("mileage", VStr (mileage lead)); ("extColor", VStr (extColor lead));
      ("intColor", VStr (intColor lead)); ("referrer", VStr (referrer lead));
      ("landingPage", VStr (landingPage lead));
      ("submittedAt", VStr (submittedAt lead)) ].

(** [v !== undefined && v !== null && String(v).trim() !== ""] *)
Definition nonblank (v : option value) : bool :=
  match v with
  | None | Some VNull => false
  | Some x => negb (String.eqb (JS.trim (to_String x)) EmptyString)
  end.

Abbreviation row := (string * string)%type.

(** [Object.keys(o).sort()] : the own keys in ascending code-unit order. *)
Definition sorted_keys (o : fields) (keep : string → bool) : list string :=
  merge_sort String.le (filter (λ k, keep k = true) (map_to_list o).*1).

(** The two loops that fill [rows] (and [included] in the first). *)
Definition rows_of (merged : fields) : list row :=
  let '(rows, included) :=
    foldl (λ '(rows, included) k,
             let v := merged !! k in
             if nonblank v then (rows ++ [(k, String_ v)], included ∪ {[k]})
             else (rows, included))
          ([], (∅ : gset string)) preferred in
  foldl (λ rows k,
           let v := merged !! k in
           if nonblank v then rows ++ [(k, String_ v)] else rows)
        rows
        (sorted_keys merged (λ k, bool_decide (k ∉ included))).

(** The markup literals below are written with ['] where the source has a
    double quote; [lit] puts the double quote back. *)
Definition lit (s : string) : string :=
  replace_all "'" (String (ascii_of_nat 34) EmptyString) s.

(** " – " : the en dash is its three UTF-8 bytes. *)
Definition en_dash : string :=
  String (ascii_of_nat 226) (String (ascii_of_nat 128) (String (ascii_of_nat 147) EmptyString)).

Definition html_row (r : row) : string :=
  lit "
        <tr>
          <th align='left' style='text-transform:capitalize;vertical-align:top;color:#111827;padding:6px 10px 6px 0;'>"
  +:+ escape r.1 +:+ lit "</th>
          <td style='vertical-align:top;color:#111827;padding:6px 0;'>"
  +:+ escape r.2 +:+ lit "</td>
        </tr>
      ".

Definition html_of (lead : Lead) (rows : list row) : string :=
  lit "
    <h2 style='margin:0 0 12px;font-family:system-ui,Segoe UI,Roboto,Helvetica,Arial;'>New Trade-In Lead</h2>
    <p style='margin:0 0 16px;color:#374151;'>
      "
  +:+ join " " (filter_Boolean [year lead; make lead; model lead])
  +:+ (if decide (trim lead = EmptyString) then EmptyString
       else " " +:+ en_dash +:+ " " +:+ escape (trim lead))
  +:+ lit "
    </p>
    <table cellpadding='6' cellspacing='0' border='0' style='border-collapse:collapse;font-family:system-ui,Segoe UI,Roboto,Helvetica,Arial;font-size:14px;'>
      "
  +:+ join EmptyString (map html_row rows)
  +:+ lit "
    </table>
    <p style='margin-top:16px;color:#6B7280;font-size:12px;'>Submitted at "
  +:+ escape (submittedAt lead) +:+ lit "</p>
  ".

Definition text_of (rows : list row) : string :=
  join (String (ascii_of_nat 10) EmptyString) (map (λ r : row, r.1 +:+ ": " +:+ r.2) rows).

Record Bodies : Type := mkBodies { html : string; text : string }.

Definition buildEmailBodies (lead : Lead) (rawData : fields) : Bodies :=
  let merged := lead_obj lead ∪ rawData in
  let rows := rows_of merged in
  {| html := html_of lead rows; text := text_of rows |}.

(** *** Uploaded files and attachments *)

(** A Buffer is its bytes. *)
Abbreviation Buffer := (list Byte.byte).

(** An entry of [files] : [{ field, filename, mimetype, buffer, size }]. *)
Module Upload.
Record t : Type := mk {
  field : string;
  filename : string;
  mimetype : string;
  buffer : Buffer;
  size : nat;
}.
End Upload.

(** A SendGrid attachment : [{ content, filename, type, disposition }]. *)
Module Attachment.
Record t : Type := mk {
  content : string;
  filename : string;
  type : string;
  disposition : string;
}.
End Attachment.

(** What Busboy hands to the "file" listener as [info]. *)
Module Info.
Record t : Type := mk {
  filename : option string;
  encoding : string;
  mimeType : option string;
}.
End Info.

(** The events Busboy emits for one part of the body: a "field" event, or
    a "file" event whose stream then emits its "data" chunks and "end". *)
Inductive part : Type :=
| FieldPart (name : string) (val : string)
| FilePart (name : string) (info : option Info.t) (data : list Buffer).

(** [o || d] for an optional string. *)
Definition str_or (o : option string) (d : string) : string :=
  match o with
  | Some s => if decide (s = EmptyString) then d else s
  | None => d
  end.

(** The "file" listener, run to the "end" of the stream: the "data" listener
    adds each chunk to [size] and [chunks], the "end" listener pushes the
    record when [cleanName && size > 0]. *)
Definition on_file (files : list Upload.t) (name : string)
    (info : option Info.t) (data : list Buffer) : list Upload.t :=
  let filename := info ≫= Info.filename in
  let mimeType := info ≫= Info.mimeType in
  let cleanName := JS.trim (str_or filename EmptyString) in
  let '(size, chunks) :=
    foldl (λ '(size, chunks) d, (size + length d, chunks ++ [d])) (0, []) data in
  if bool_decide (cleanName ≠ EmptyString) && bool_decide (0 < size) then
    files ++ [ {| Upload.field := name;
                  Upload.filename := cleanName;
                  Upload.mimetype := str_or mimeType "application/octet-stream";
                  Upload.buffer := concat chunks;
                  Upload.size := size |} ]
  else files.

(** The listeners of [parseMultipart] run over the parts in body order;
    the "finish" listener resolves with [{ fields, files }]. *)
Definition on_part (st : fields * list Upload.t) (p : part) : fields * list Upload.t :=
  match p with
  | FieldPart name val => (<[name := VStr val]> st.1, st.2)
  | FilePart name info data => (st.1, on_file st.2 name info data)
  end.

Definition run_listeners (parts : list part) : fields * list Upload.t :=
  foldl on_part (∅, []) parts.



Section attachments.
(** [buffer.toString("base64")] *)
Variable base64 : Buffer → string.

(** The callback of [.map]. *)
Definition attachment_of (f : Upload.t) : Attachment.t :=
  {| Attachment.content := base64 (Upload.buffer f);
     Attachment.filename := Upload.filename f;
     Attachment.type := str_or (Some (Upload.mimetype f)) "application/octet-stream";
     Attachment.disposition := "attachment" |}.

Definition toAttachments (files : list Upload.t) : list Attachment.t :=
  map attachment_of
    (take 8
       (filter (λ f, 0 < length (Upload.buffer f)
                     ∧ Upload.filename f ≠ EmptyString
                     ∧ JS.trim (Upload.filename f) ≠ EmptyString)
               files)).
End attachments.

(** *** handler *)

Module Event.
Record t : Type := mk {
  httpMethod : string;
  headers : gmap string string;
  body : option string;
  isBase64Encoded : bool;
}.
End Event.

(** A response body: plain text, or [JSON.stringify(v)]. *)
Inductive Body : Type :=
| BText (s : string)
| BJson (v : value).

Module Response.
Record t : Type := mk {
  statusCode : Z;
  headers : gmap string string;
  body : Body;
}.
End Response.

(** The argument of [sg.send]. *)
Module Message.
Record t : Type := mk {
  to : list string;
  from : option string;
  subject : string;
  text : string;
  html : string;
  attachments : option (list Attachment.t);
}.
End Message.

(** [process.env] *)
Record Env : Type := mkEnv {
  TO_EMAIL : option string;
  FROM_EMAIL : option string;
  SHEETS_WEBHOOK_URL : option string;
  SHEETS_SHARED_SECRET : option string;
}.

(** The calls that leave the function. *)
Inductive effect : Type :=
| SgSend (msg : Message.t)
| FetchPost (url : string) (body : Body).

Definition headers : gmap string string :=
  <["Access-Control-Allow-Origin" := "*"]>
    (<["Access-Control-Allow-Headers" := "content-type"]> ∅).


Definition default_recipients : string :=
  "mpalmer@quirkcars.com, steve.obrien@quirkcars.com, jlombard@quirkcars.com, msalihovic@quirkcars.com, nway@quirkcars.com, gmcintosh@quirkcars.com, lmendez@quirkcars.com".

Section handler.
Variable now : string.
Variable base64 : Buffer → string.
(** [Buffer.from(s, "base64")] and [Buffer.from(s, "utf8")] *)
Variable Buffer_from : string → string → Buffer.
(** The parts Busboy emits for a content type and a body before "finish";
    [None] when it throws or emits "error". *)
Variable Busboy : string → Buffer → option (list part).
(** [JSON.parse] of a text that is a JSON object; [None] when it throws. *)
Variable JSON_parse : string → option fields.
(** [sg.send] : [true] when the promise resolves. *)
Variable sg_send : Message.t → bool.
Variable encodeURIComponent : string → string.
Variable env : Env.

(** [contentType] and [body] of [parseMultipart]. *)
Definition contentType (event : Event.t) : string :=
  str_or (Event.headers event !! "content-type")
    (str_or (Event.headers event !! "Content-Type") EmptyString).

Definition body (event : Event.t) : Buffer :=
  if Event.isBase64Encoded event
  then Buffer_from (str_or (Event.body event) EmptyString) "base64"
  else Buffer_from (str_or (Event.body event) EmptyString) "utf8".

Definition parseMultipart (event : Event.t) : option (fields * list Upload.t) :=
  run_listeners <$> Busboy (contentType event) (body event).

Definition lead_json (lead : Lead) : value :=
  VObj [ ("name", VStr (name lead)); ("email", VStr (email lead));
         ("phone", VStr (phone lead)); ("vin", VStr (vin lead));
         ("year", VStr (year lead)); ("make", VStr (make lead));
         ("model", VStr (model lead)); ("trim", VStr (trim lead));
         ("mileage", VStr (mileage lead)); ("extColor", VStr (extColor lead));
         ("intColor", VStr (intColor lead)); ("referrer", VStr (referrer lead));
         ("landingPage", VStr (landingPage lead));
         ("submittedAt", VStr (submittedAt lead)) ].

(** The optional Sheets backup; its errors are caught and ignored. *)
Definition backup (lead : Lead) : list effect :=
  match SHEETS_WEBHOOK_URL env with
  | Some url =>
      if decide (url = EmptyString) then []
      else
        let u := match SHEETS_SHARED_SECRET env with
                 | Some secret =>
                     if decide (secret = EmptyString) then url
                     else url +:+ "?secret=" +:+ encodeURIComponent secret
                 | None => url
                 end in
        [FetchPost u (BJson (lead_json lead))]
  | None => []
  end.

Definition wantsJson (event : Event.t) : bool :=
  includes (str_or (Event.headers event !! "accept") EmptyString) "application/json"
  || bool_decide (toLowerCase (str_or (Event.headers event !! "x-requested-with") EmptyString)
                  = "xmlhttprequest").

(** The [try] block that fills [rawData] and [uploads]; [None] is its
    [catch]. *)
Definition parse_body (event : Event.t) : option (fields * list Upload.t) :=
  let ct :=
    str_or (Event.headers event !! "content-type")
      (str_or (Event.headers event !! "Content-Type") EmptyString) in
  let isMultipart := startsWith ct "multipart/form-data" in
  if isMultipart then parseMultipart event
  else (λ o, (o, [])) <$> JSON_parse (str_or (Event.body event) "{}").

Definition handler (event : Event.t) : list effect * outcome Response.t :=
  if decide (Event.httpMethod event = "OPTIONS") then
    ([], Ret (Response.mk 200 headers (BText "ok")))
  else if decide (Event.httpMethod event ≠ "POST") then
    ([], Ret (Response.mk 405 headers (BText "Method Not Allowed")))
  else
    match parse_body event with
    | None => ([], Ret (Response.mk 400 headers (BText "Invalid request body")))
    | Some (rawData, uploads) =>
      if decide (JS.trim (str_or (Some (safe (rawData !! "company"))) EmptyString) ≠ EmptyString)
      then ([], Ret (Response.mk 200 headers
                       (BJson (VObj [("ok", VBool true); ("silent", VBool true)]))))
      else
        match normalizeLead now rawData with
        | Throw e => ([], Throw e)
        | Ret lead =>
          if bool_decide (name lead = EmptyString) || bool_decide (email lead = EmptyString)
             || bool_decide (phone lead = EmptyString) || bool_decide (vin lead = EmptyString)
          then ([], Ret (Response.mk 400 headers (BText "Missing required fields")))
          else
            let bodies := buildEmailBodies lead rawData in
            let att := toAttachments base64 uploads in
            let attachments := match att with [] => None | _ => Some att end in
            let subjectLine :=
              JS.trim ("New Trade-In Lead " +:+ en_dash +:+ " " +:+ name lead +:+ " "
                       +:+ en_dash +:+ " "
                       +:+ join " " (filter_Boolean [year lead; make lead; model lead])) in
            let recipients :=
              filter_Boolean
                (map JS.trim (split "," (str_or (TO_EMAIL env) default_recipients))) in
            let msg :=
              {| Message.to := recipients;
                 Message.from := FROM_EMAIL env;
                 Message.subject := subjectLine;
                 Message.text := text bodies;
                 Message.html := html bodies;
                 Message.attachments := attachments |} in
            if sg_send msg then
              ([SgSend msg] ++ backup lead,
               if wantsJson event then
                 Ret (Response.mk 200 headers
                        (BJson (VObj [("ok", VBool true);
                                      ("files", VNum (match attachments with
                                                      | Some a => Z.of_nat (length a)
                                                      | None => 0
                                                      end))])))
               else
                 Ret (Response.mk 303 (<["Location" := "/success/index.html"]> headers)
                        (BText EmptyString)))
            else
              ([SgSend msg], Ret (Response.mk 502 headers (BText "Failed to send lead")))
        end
    end.

End handler.

End TradeAppraisal.

(** ** netlify/functions/submission-created.js *)

Module SubmissionCreated.
Import JS.

Abbreviation fields := (gmap string value).
Abbreviation row := (string * string)%type.

(** *** createEmailContent *)

Definition included : gset string :=
  {[ "form-name"; "company"; "bot-field"; "honeypot" ]}.

Definition hasVal (v : option value) : bool :=
  match v with
  | None | Some VNull => false
  | Some x => negb (String.eqb (JS.trim (to_String x)) EmptyString)
  end.

(** [Array.isArray(v) ? v.join(", ") : String(v)] *)
Definition render (v : value) : string :=
  match v with
  | VArr l =>
      join ", " (map (λ e, match e with VNull => EmptyString | _ => to_String e end) l)
  | _ => to_String v
  end.

(** [Object.keys(data).sort()] *)
Definition sorted_keys (data : fields) : list string :=
  merge_sort String.le (map_to_list data).*1.

Definition rows_of (data : fields) : list row :=
  foldl (λ rows k,
           if bool_decide (k ∈ included) then rows
           else match data !! k with
                | Some v => if hasVal (Some v) then rows ++ [(k, render v)] else rows
                | None => rows
                end)
        [] (sorted_keys data).

Definition htmlEscape (s : string) : string :=
  replace_all ">" "&gt;" (replace_all "<" "&lt;" (replace_all "&" "&amp;" s)).

Definition lit (s : string) : string :=
  replace_all "'" (String (ascii_of_nat 34) EmptyString) s.

Definition html_row (r : row) : string :=
  lit "
        <tr>
          <th align='left' style='text-transform:capitalize;font-family:system-ui,Segoe UI,Roboto,Helvetica,Arial;font-size:14px;color:#111827;padding:6px 10px 6px 0;'>"
  +:+ htmlEscape r.1 +:+ lit "</th>
          <td style='font-family:system-ui,Segoe UI,Roboto,Helvetica,Arial;font-size:14px;color:#111827;padding:6px 0;'>"
  +:+ htmlEscape r.2 +:+ lit "</td>
        </tr>
      ".

Definition htmlBody_of (rows : list row) : string :=
  lit "
    <h2 style='margin:0 0 12px 0;font-family:system-ui,Segoe UI,Roboto,Helvetica,Arial;'>New Trade-In Lead</h2>
    <table cellpadding='6' cellspacing='0' border='0' style='border-collapse:collapse;'>
      "
  +:+ join EmptyString (map html_row rows)
  +:+ lit "
    </table>
  ".

(** [s.replace(/\s+/g, " ")] : [in_ws] says the previous character was
    white space, whose run already gave its one space. *)
Fixpoint collapse_ws (in_ws : bool) (s : string) : string :=
  match s with
  | EmptyString => EmptyString
  | String c s' =>
      if is_ws c then
        if in_ws then collapse_ws true s' else String " " (collapse_ws true s')
      else String c (collapse_ws false s')
  end.

(** [${v || ""}] in a template. *)
Definition or_empty (v : option value) : string :=
  if truthy v then String_ v else EmptyString.

Record EmailContent : Type := mkEmailContent {
  subject : string;
  htmlBody : string;
  textBody : string;
}.

Definition createEmailContent (data : fields) : EmailContent :=
  let rows := rows_of data in
  {| subject :=
       JS.trim (collapse_ws false
         ("New Trade-In Lead " +:+ TradeAppraisal.en_dash +:+ " "
          +:+ or_empty (data !! "year") +:+ " " +:+ or_empty (data !! "make")
          +:+ " " +:+ or_empty (data !! "model")));
     htmlBody := htmlBody_of rows;
     textBody :=
       join (String (ascii_of_nat 10) EmptyString)
            (map (λ r : row, r.1 +:+ ": " +:+ r.2) rows) |}.

(** *** The files of the payload and the markup that lists them *)

(** An entry of [payload.files] : [{ url, filename, type }]. *)
Module Descriptor.
Record t : Type := mk {
  url : string;
  filename : option string;
  type : option string;
}.
End Descriptor.

Definition str_or := TradeAppraisal.str_or.

Definition filesHtml (files : list Descriptor.t) : string :=
  match files with
  | [] => "<p>No photos uploaded.</p>"
  | _ =>
      "<ul>"
      +:+ join EmptyString
            (map (λ f, lit "<li><a href='" +:+ Descriptor.url f +:+ lit "'>"
                       +:+ str_or (Descriptor.filename f) (Descriptor.url f)
                       +:+ "</a></li>") files)
      +:+ "</ul>"
  end.

(** The [html] the handler gives to [sg.send]. *)
Definition email_html (data : fields) (files : list Descriptor.t) : string :=
  htmlBody (createEmailContent data)
  +:+ lit "<h3 style='margin-top:16px;'>Photos</h3>" +:+ filesHtml files.

(** *** processAttachments *)

Definition MAX_ATTACH : nat := 10.
Definition MAX_EACH_MB : N := 7.
Definition MAX_TOTAL_MB : N := 20.

(** A SendGrid attachment; [filename] is [file.filename] as it is. *)
Module Attachment.
Record t : Type := mk {
  content : string;
  filename : option string;
  type : string;
  disposition : string;
}.
End Attachment.

Section processAttachments.
(** The Buffer of a downloaded body, its [byteLength] and its
    [toString("base64")]. *)
Variable Buf : Type.
Variable byteLength : Buf → N.
Variable base64 : Buf → string.

(** What [await fetch(url)] gives: [ok], [status] and what
    [await response.arrayBuffer()] gives. *)
Record HttpResponse : Type := mkHttpResponse {
  ok : bool;
  status : Z;
  arrayBuffer : outcome Buf;
}.

(** The outcome of the request the [i]-th callback makes. *)
Variable fetch : nat → string → outcome HttpResponse.

(** The callback of [.map] for the file at index [i], as a function of the
    shared [totalSize] it finds when its last [await] resumes; from there
    to its [return] it runs without interleaving.  Every [Throw] inside
    the [try] block ends in [catch (error) { return null }]. *)
Definition callback (i : nat) (file : Descriptor.t) (totalSize : N)
    : N * outcome (option Attachment.t) :=
  match fetch i (Descriptor.url file) with
  | Throw _ => (totalSize, Ret None)
  | Ret response =>
      if negb (ok response) then (totalSize, Ret None)
      else
        match arrayBuffer response with
        | Throw _ => (totalSize, Ret None)
        | Ret buffer =>
            let size := byteLength buffer in
            if (MAX_EACH_MB * 1024 * 1024 <? size)%N then (totalSize, Ret None)
            else if (MAX_TOTAL_MB * 1024 * 1024 <? totalSize + size)%N
            then (totalSize, Ret None)
            else
              ((totalSize + size)%N,
               Ret (Some {| Attachment.content := base64 buffer;
                            Attachment.filename := Descriptor.filename file;
                            Attachment.type :=
                              str_or (Descriptor.type file) "application/octet-stream";
                            Attachment.disposition := "attachment" |}))
        end
  end.

(** The promises of [fetchPromises] by index, [None] while pending. *)
Abbreviation promises := (list (option (outcome (option Attachment.t)))).

(** One resumption: the callback of index [i] runs to its end. *)
Definition resume (considered : list Descriptor.t) (st : N * promises) (i : nat)
    : N * promises :=
  match considered !! i with
  | Some file =>
      let '(totalSize, r) := callback i file st.1 in
      (totalSize, <[i := Some r]> st.2)
  | None => st
  end.

(** [order] is the order in which the callbacks resume after their last
    [await], that is the order in which the downloads complete. *)
Definition run (order : list nat) (considered : list Descriptor.t) : N * promises :=
  foldl (resume considered) (0%N, replicate (length considered) None) order.

(** [await Promise.all(ps)] : it rejects when a promise has rejected,
    resolves with the values once all have resolved, and is still awaited
    ([None]) otherwise. *)
Fixpoint Promise_all {A} (ps : list (option (outcome A))) : option (outcome (list A)) :=
  match ps with
  | [] => Some (Ret [])
  | p :: ps' =>
      match p, Promise_all ps' with
      | Some (Throw e), _ => Some (Throw e)
      | _, Some (Throw e) => Some (Throw e)
      | Some (Ret a), Some (Ret l) => Some (Ret (a :: l))
      | _, _ => None
      end
  end.

(** [None] : the function has not returned yet, a download is still on
    its way. *)
Definition processAttachments (order : list nat) (files : list Descriptor.t)
    : option (outcome (list Attachment.t)) :=
  let considered := take MAX_ATTACH files in
  match Promise_all (run order considered).2 with
  | Some settled => Some (bind settled (λ results, Ret (omap id results)))
  | None => None
  end.

(** **** The admission policy in the words of the specification *)

(** The body the request of index [i] brings back, when it does. *)
Definition downloaded (i : nat) (file : Descriptor.t) : option Buf :=
  match fetch i (Descriptor.url file) with
  | Ret response =>
      if ok response then
        match arrayBuffer response with
        | Ret buffer => Some buffer
        | Throw _ => None
        end
      else None
  | Throw _ => None
  end.

Definition MAX_EACH_BYTES : N := MAX_EACH_MB * 1024 * 1024.
Definition MAX_TOTAL_BYTES : N := MAX_TOTAL_MB * 1024 * 1024.

(** A file fits when it was retrieved, is no larger than MAX_EACH_BYTES
    and does not take the running total above MAX_TOTAL_BYTES. *)
Definition fits (considered : list Descriptor.t) (total : N) (i : nat) : option N :=
  file ← considered !! i;
  buffer ← downloaded i file;
  let size := byteLength buffer in
  if decide (size ≤ MAX_EACH_BYTES ∧ total + size ≤ MAX_TOTAL_BYTES)%N
  then Some size else None.

(** First fit: the files are taken in the order [order], each one that
    fits is admitted and counted; the state is the running total and the
    indices admitted so far. *)
Definition fit_step (considered : list Descriptor.t) (st : N * list nat) (i : nat)
    : N * list nat :=
  match fits considered st.1 i with
  | Some size => ((st.1 + size)%N, st.2 ++ [i])
  | None => st
  end.

Definition first_fit (considered : list Descriptor.t) (order : list nat)
    : N * list nat :=
  foldl (fit_step considered) (0%N, []) order.

Definition payload (file : Descriptor.t) (buffer : Buf) : Attachment.t :=
  {| Attachment.content := base64 buffer;
     Attachment.filename := Descriptor.filename file;
     Attachment.type := str_or (Descriptor.type file) "application/octet-stream";
     Attachment.disposition := "attachment" |}.

(** The payload of index [i] when [i] is among the admitted, nothing
    otherwise. *)
Definition payload_if (considered : list Descriptor.t) (admitted : list nat) (i : nat)
    : option Attachment.t :=
  if decide (i ∈ admitted) then
    file ← considered !! i; buffer ← downloaded i file; Some (payload file buffer)
  else None.

(** The payloads of the admitted files, in input order. *)
Definition admitted_payloads (considered : list Descriptor.t) (admitted : list nat)
    : list Attachment.t :=
  omap (payload_if considered admitted) (seq 0 (length considered)).

(** **** Notions the properties are stated with *)

(** A request that failed: [fetch] threw (a network error) or the
    response is not OK. *)
Definition fetch_failed (r : outcome HttpResponse) : Prop :=
  match r with
  | Throw _ => True
  | Ret response => ok response = false
  end.

(** The promises after the callbacks of [order] have resumed: those of
    [order] are settled with the payload of the admitted and [null] for the
    others, the rest is pending. *)
Definition settled (considered : list Descriptor.t) (order admitted : list nat)
    (ps : list (option (outcome (option Attachment.t)))) : Prop :=
  length ps = length considered
  ∧ ∀ j, j < length considered →
      ps !! j = Some (if decide (j ∈ order)
                      then Some (Ret (payload_if considered admitted j))
                      else None).

(** No promise of [ps] has rejected. *)
Definition no_reject {A} (ps : list (option (outcome A))) : Prop :=
  Forall (λ p, ∀ e, p ≠ Some (Throw e)) ps.

(** The bytes a file brings, none when it was not retrieved. *)
Definition size_of (considered : list Descriptor.t) (j : nat) : N :=
  match considered !! j ≫= downloaded j with
  | Some buffer => byteLength buffer
  | None => 0%N
  end.

(** The bytes the files of [l] bring together. *)
Definition sum_sizes (considered : list Descriptor.t) (l : list nat) : N :=
  foldr (λ j acc, (size_of considered j + acc)%N) 0%N l.

End processAttachments.

Arguments mkHttpResponse {Buf}.
Arguments ok {Buf}.
Arguments status {Buf}.
Arguments arrayBuffer {Buf}.
Arguments callback {Buf}.
Arguments resume {Buf}.
Arguments run {Buf}.
Arguments processAttachments {Buf}.
Arguments downloaded {Buf}.
Arguments fits {Buf}.
Arguments fit_step {Buf}.
Arguments first_fit {Buf}.
Arguments payload {Buf}.
Arguments payload_if {Buf}.
Arguments admitted_payloads {Buf}.

Arguments fetch_failed {Buf}.
Arguments settled {Buf}.
Arguments size_of {Buf}.
Arguments sum_sizes {Buf}.

End SubmissionCreated.

(** ** The row order in the words of the specification *)


(** The row of a key by the words of the specification: none when the key
    is absent or blank. *)
Definition spec_row (render : JS.value → string) (m : gmap string JS.value) (k : string)
    : option (string * string) :=
  match m !! k with
  | Some v => if TradeAppraisal.nonblank (Some v) then Some (k, render v) else None
  | None => None
  end.

(** The rows by the words of the specification: the preferred keys in
    their order, then the remaining keys in lexicographic order, blanks
    skipped and control fields excluded. *)
Definition spec_rows (control preferred : list string) (render : JS.value → string)
    (m : gmap string JS.value) : list (string * string) :=
  omap (spec_row render m) (filter (.∉ control) preferred)
  ++ omap (spec_row render m)
       (merge_sort String.le
          (filter (λ k, (k ∉ preferred) ∧ (k ∉ control)) (map_to_list m).*1)).

(** ** Concrete requests *)

Module Examples.
Import JS TradeAppraisal.

Definition now : string := "2026-01-05T10:00:00.000Z".
Definition base64 (b : Buffer) : string := "QUJD".
Definition Buffer_from (s enc : string) : Buffer := [].
Definition sg_send (msg : Message.t) : bool := true.
Definition encodeURIComponent (s : string) : string := s.
Definition env : Env := mkEnv None (Some "sales@quirkcars.com") None None.

(** A JSON POST and the parser that reads its body as [o]. *)
Definition json_event : Event.t :=
  Event.mk "POST" (<["content-type" := "application/json"]> ∅) (Some "{...}") false.
Definition JSON_is (o : fields) (s : string) : option fields := Some o.
Definition no_Busboy (ct : string) (b : Buffer) : option (list part) := None.




(** A multipart POST and the parts Busboy finds in it. *)
Definition multipart_event : Event.t :=
  Event.mk "POST"
    (<["content-type" := "multipart/form-data; boundary=x"]>
       (<["accept" := "application/json"]> ∅))
    (Some "--x...") false.
Definition Busboy_is (parts : list part) (ct : string) (b : Buffer)
  : option (list part) := Some parts.
Definition no_JSON (s : string) : option fields := None.

Definition photo (filename : string) (data : list Buffer) : part :=
  FilePart "photos" (Some (Info.mk (Some filename) "7bit" (Some "image/jpeg"))) data.

(** One real photo, an empty file input, a blank name, a zero-byte file. *)
Definition mixed_parts : list part :=
  [ FieldPart "name" "Al";
    photo "a.jpg" [[Byte.x41; Byte.x42]; [Byte.x43]];
    photo EmptyString [];
    photo "   " [[Byte.x41]];
    photo "z.png" [[]] ].


End Examples.

(** A helper for the concrete requests below: a lead with every required
    field, to which more fields are added. *)
Definition complete_fields : gmap string JS.value :=
  <["name" := JS.VStr "Al"]>
    (<["email" := JS.VStr "al@example.com"]>
       (<["phone" := JS.VStr "6175551234"]>
          (<["vin" := JS.VStr "1HGCM82633A004352"]> ∅))).

(** ** Concrete batches *)

Module FetchExamples.
Import JS SubmissionCreated.

Definition MiB : N := 1024 * 1024.

Definition photo (name : string) : Descriptor.t :=
  Descriptor.mk ("https://files.example/" +:+ name) (Some name) (Some "image/jpeg").

Definition three : list Descriptor.t := [photo "a.jpg"; photo "b.jpg"; photo "c.jpg"].

(** A body is its number of bytes. *)
Definition byteLength (n : N) : N := n.
Definition base64 (n : N) : string := "QUJD".

(** The network: the request of index [i] brings the [i]-th body, a 404
    where there is none, and fails past the end of the list. *)
Definition net (bodies : list (option N)) (i : nat) (url : string)
    : outcome (HttpResponse N) :=
  match bodies !! i with
  | Some (Some n) => Ret (mkHttpResponse true 200 (Ret n))
  | Some None => Ret (mkHttpResponse false 404 (Throw (Error "body unusable")))
  | None => Throw (TypeError "fetch failed")
  end.

Definition sent (name : string) : Attachment.t :=
  Attachment.mk "QUJD" (Some name) "image/jpeg" "attachment".

End FetchExamples.

(** ** Notions the further properties are stated with *)

(** What one character becomes in escaped markup. *)
Definition entity (c : ascii) : string :=
  if Ascii.eqb c "&" then "&amp;"
  else if Ascii.eqb c "<" then "&lt;"
  else if Ascii.eqb c ">" then "&gt;"
  else String c EmptyString.

(** The escaping done in one pass, character by character. *)
Fixpoint escape_chars (s : string) : string :=
  match s with
  | EmptyString => EmptyString
  | String c s' => entity c +:+ escape_chars s'
  end.

(** The reading of escaped markup: the three entities back to their
    characters. *)
Fixpoint unescape (s : string) : string :=
  match s with
  | EmptyString => EmptyString
  | String c s' =>
      if Ascii.eqb c "&" then
        match s' with
        | String "a" (String "m" (String "p" (String ";" t))) => String "&" (unescape t)
        | String "l" (String "t" (String ";" t)) => String "<" (unescape t)
        | String "g" (String "t" (String ";" t)) => String ">" (unescape t)
        | _ => String c (unescape s')
        end
      else String c (unescape s')
  end.

(** The lead with another time stamp. *)
Definition restamp (now : string) (lead : TradeAppraisal.Lead) : TradeAppraisal.Lead :=
  {| TradeAppraisal.name := TradeAppraisal.name lead;
     TradeAppraisal.email := TradeAppraisal.email lead;
     TradeAppraisal.phone := TradeAppraisal.phone lead;
     TradeAppraisal.vin := TradeAppraisal.vin lead;
     TradeAppraisal.year := TradeAppraisal.year lead;
     TradeAppraisal.make := TradeAppraisal.make lead;
     TradeAppraisal.model := TradeAppraisal.model lead;
     TradeAppraisal.trim := TradeAppraisal.trim lead;
     TradeAppraisal.mileage := TradeAppraisal.mileage lead;
     TradeAppraisal.extColor := TradeAppraisal.extColor lead;
     TradeAppraisal.intColor := TradeAppraisal.intColor lead;
     TradeAppraisal.referrer := TradeAppraisal.referrer lead;
     TradeAppraisal.landingPage := TradeAppraisal.landingPage lead;
     TradeAppraisal.submittedAt := now |}.

(** The values a multipart body gives for the field [k], in body order. *)
Definition field_values (k : string) (parts : list TradeAppraisal.part) : list string :=
  omap (λ p, match p with
             | TradeAppraisal.FieldPart n v => if decide (n = k) then Some v else None
             | TradeAppraisal.FilePart _ _ _ => None
             end) parts.

(** The message the Form Intake Handler gives to SendGrid for a lead. *)
Definition sent_message (base64 : list Byte.byte → string) (env : TradeAppraisal.Env)
    (lead : TradeAppraisal.Lead) (rawData : gmap string JS.value)
    (uploads : list TradeAppraisal.Upload.t) : TradeAppraisal.Message.t :=
  {| TradeAppraisal.Message.to :=
       JS.filter_Boolean
         (map JS.trim
            (JS.split ","
               (TradeAppraisal.str_or (TradeAppraisal.TO_EMAIL env)
                  TradeAppraisal.default_recipients)));
     TradeAppraisal.Message.from := TradeAppraisal.FROM_EMAIL env;
     TradeAppraisal.Message.subject :=
       JS.trim ("New Trade-In Lead " +:+ TradeAppraisal.en_dash +:+ " "
                +:+ TradeAppraisal.name lead +:+ " " +:+ TradeAppraisal.en_dash +:+ " "
                +:+ JS.join " "
                      (JS.filter_Boolean
                         [TradeAppraisal.year lead; TradeAppraisal.make lead;
                          TradeAppraisal.model lead]));
     TradeAppraisal.Message.text :=
       TradeAppraisal.text (TradeAppraisal.buildEmailBodies lead rawData);
     TradeAppraisal.Message.html :=
       TradeAppraisal.html (TradeAppraisal.buildEmailBodies lead rawData);
     TradeAppraisal.Message.attachments :=
       match TradeAppraisal.toAttachments base64 uploads with
       | [] => None
       | a => Some a
       end |}.

(** ** netlify/functions/submission-created.js : the handler *)

Module Relay.
Import JS SubmissionCreated.

(** [process.env] *)
Record Env : Type := mkEnv {
  SENDGRID_API_KEY : option string;
  FROM_EMAIL : option string;
  TO_EMAIL : option string;
  SHEETS_WEBHOOK_URL : option string;
  SHEETS_SHARED_SECRET : option string;
}.

(** [!x] for an optional string: [undefined] and the empty string are
    falsy. *)
Definition missing (x : option string) : bool :=
  match x with
  | Some s => bool_decide (s = EmptyString)
  | None => true
  end.

(** [payload] of the envelope, with [data] and [files] as sent or absent:
    [data] an object and [files] an array of descriptors, as Netlify sends
    them. *)
Record Payload : Type := mkPayload {
  data : option fields;
  files : option (list Descriptor.t);
}.

(** The argument of [sg.send]. *)
Module Message.
Record t : Type := mk {
  to : list string;
  from : option string;
  subject : string;
  text : string;
  html : string;
  attachments : option (list Attachment.t);
}.
End Message.

(** The calls that leave the function, the downloads apart: [sg.send],
    and the POST of [triggerBackupWebhook] with the object whose JSON text
    is its body.  Both are awaited and taken to settle. *)
Inductive effect : Type :=
| SgSend (msg : Message.t)
| FetchPost (url : string) (lead : fields).

Record Response : Type := mkResponse {
  statusCode : Z;
  body : string;
}.

Section handler.
Variable now : string.
Variable env : Env.
(** [JSON.parse(text).payload] for the text of an envelope: [None] when
    the [try] block throws, [Some None] when there is no payload. *)
Variable JSON_parse_payload : string → option (option Payload).
Variable sg_send : Message.t → bool.
Variable encodeURIComponent : string → string.
Variable Buf : Type.
Variable byteLength : Buf → N.
Variable base64 : Buf → string.
Variable fetch : nat → string → outcome (HttpResponse Buf).

Definition TO_EMAILS : list string :=
  split ","
    (str_or (TO_EMAIL env)
       "steve@quirkcars.com,gmcintosh@quirkcars.com,lmendez@quirkcars.com").

(** [triggerBackupWebhook] : the effects it has; what its [fetch] throws
    is caught. *)
Definition triggerBackupWebhook (data : fields) (files : list Descriptor.t)
    : list effect :=
  if missing (SHEETS_WEBHOOK_URL env) then []
  else
    let fileUrls := VArr ((λ f, VStr (Descriptor.url f)) <$> files) in
    let lead := <["_ts" := VStr now]> (<["fileUrls" := fileUrls]> data) in
    let url := str_or (SHEETS_WEBHOOK_URL env) EmptyString in
    let url :=
      if missing (SHEETS_SHARED_SECRET env) then url
      else url +:+ "?secret="
           +:+ encodeURIComponent (str_or (SHEETS_SHARED_SECRET env) EmptyString) in
    [FetchPost url lead].

(** The text of the email: the rows, then the URLs of the photos. *)
Definition email_text (data : fields) (files : list Descriptor.t) : string :=
  textBody (createEmailContent data)
  +:+ String (ascii_of_nat 10) (String (ascii_of_nat 10) EmptyString)
  +:+ "Photos:" +:+ String (ascii_of_nat 10) EmptyString
  +:+ str_or (Some (join (String (ascii_of_nat 10) EmptyString)
                      (Descriptor.url <$> files)))
        "No photos uploaded.".

(** Step 4 of the handler: [attachments] after the [await], [None] while
    a download is still on its way; what [processAttachments] throws is
    caught and leaves the list empty. *)
Definition awaited (order : list nat) (files : list Descriptor.t)
    : option (list Attachment.t) :=
  if bool_decide (0 < length files) then
    match processAttachments byteLength base64 fetch order files with
    | Some (Ret attachments) => Some attachments
    | Some (Throw _) => Some []
    | None => None
    end
  else Some [].

(** The argument of [sg.send] in step 5. *)
Definition message (data : fields) (files : list Descriptor.t)
    (attachments : list Attachment.t) : Message.t :=
  {| Message.to := TO_EMAILS;
     Message.from := FROM_EMAIL env;
     Message.subject := subject (createEmailContent data);
     Message.text := email_text data files;
     Message.html := email_html data files;
     Message.attachments :=
       match attachments with [] => None | _ => Some attachments end |}.

(** The handler once the downloads have completed in the order [order];
    [None] while one is still on its way. *)
Definition handler (order : list nat) (event_body : option string)
    : option (list effect * Response) :=
  if missing (SENDGRID_API_KEY env) || missing (FROM_EMAIL env)
     || bool_decide (length TO_EMAILS = 0)
  then
    Some ([], mkResponse 500
                "Server configuration error: Missing API keys or email configuration.")
  else
    match JSON_parse_payload (str_or event_body "{}") with
    | None => Some ([], mkResponse 400 "Invalid webhook payload")
    | Some payload =>
        let data := default ∅ (payload ≫= data) in
        let files := default [] (payload ≫= files) in
        match awaited order files with
        | None => None
        | Some attachments =>
            let msg := message data files attachments in
            if sg_send msg then
              Some (SgSend msg :: triggerBackupWebhook data files,
                    mkResponse 200 "ok")
            else
              Some ([SgSend msg], mkResponse 502 "Failed to send email via provider.")
        end
    end.

End handler.

Arguments awaited {Buf}.
Arguments handler now env JSON_parse_payload sg_send encodeURIComponent {Buf}.

End Relay.

(** ** assets/app.js *)

Module App.
Import JS.

(** A character of the class [[A-HJ-NPR-Z0-9]]. *)
Definition vin_char (c : ascii) : bool :=
  let n := N_of_ascii c in
  (((65 <=? n) && (n <=? 72)) || ((74 <=? n) && (n <=? 78)) || (n =? 80)
   || ((82 <=? n) && (n <=? 90)) || ((48 <=? n) && (n <=? 57)))%N.

Fixpoint every (p : ascii → bool) (s : string) : bool :=
  match s with
  | EmptyString => true
  | String c s' => p c && every p s'
  end.

(** [/^[A-HJ-NPR-Z0-9]{17}$/.test(s)] *)
Definition vin_pattern (s : string) : bool :=
  (String.length s =? 17) && every vin_char s.

Definition validVin (v : string) : bool :=
  if decide (v = EmptyString) then false
  else vin_pattern (toUpperCase (JS.trim v)).

(** [vin] in [doDecode], for the value of the VIN input:
    [(vinInput.value || "").trim().toUpperCase()] *)
Definition doDecode_vin (value : string) : string :=
  toUpperCase (JS.trim value).

(** [v] in the "input" listener of the VIN input:
    [(vinInput.value || "").toUpperCase().replace(/\s+/g, "")] *)
Definition input_vin (value : string) : string :=
  filter_chars (λ c, negb (is_ws c)) (toUpperCase value).

End App.


(** ** Concrete submissions *)

Module RelayExamples.
Import JS SubmissionCreated.

Definition now : string := "2026-01-05T10:00:00.000Z".

Definition env : Relay.Env :=
  Relay.mkEnv (Some "SG.key") (Some "sales@quirkcars.com") None
    (Some "https://sheets.example/hook") (Some "s3cret").

(** A submission that has a field of its own under [_ts]. *)
Definition data : fields :=
  <["year" := VStr "2020"]>
    (<["make" := VStr "VW"]> (<["_ts" := VStr "yesterday"]> ∅)).

Definition payload : Relay.Payload :=
  Relay.mkPayload (Some data) (Some FetchExamples.three).

Definition JSON_is (p : Relay.Payload) (s : string) : option (option Relay.Payload) :=
  Some (Some p).
Definition sg_send (msg : Relay.Message.t) : bool := true.
Definition encodeURIComponent (s : string) : string := s.

(** The first download brings 5 MiB, the second fails, the third brings
    3 MiB. *)
Definition fetch : nat → string → outcome (HttpResponse N) :=
  FetchExamples.net [Some (5 * FetchExamples.MiB); None;
                     Some (3 * FetchExamples.MiB)]%N.

End RelayExamples.

(** The lead [normalizeLead] makes of [complete_fields]. *)
Definition al_lead : TradeAppraisal.Lead :=
  TradeAppraisal.mkLead "Al" "al@example.com" "6175551234" "1HGCM82633A004352"
    EmptyString EmptyString EmptyString EmptyString EmptyString EmptyString
    EmptyString EmptyString EmptyString Examples.now.

(** * Properties *)

(** ** Facts about the string built-ins *)

Module JSFacts.
Import JS.

Lemma trimStart_clean s : starts_clean (trimStart s).
Proof.
  induction s as [|c s IH]; simpl; [done|].
  destruct (is_ws c) eqn:Hc; [done|]. simpl. done.
Qed.

Lemma trimStart_id s : starts_clean s → trimStart s = s.
Proof. destruct s as [|c s]; simpl; [done|]. by intros ->. Qed.

Lemma trimEnd_clean s : starts_clean s → starts_clean (trimEnd s).
Proof.
  destruct s as [|c s]; simpl; [done|]. intros Hc.
  destruct (trimEnd s); simpl; by rewrite ?Hc.
Qed.

Lemma trimEnd_idemp s : trimEnd (trimEnd s) = trimEnd s.
Proof.
  induction s as [|c s IH]; simpl; [done|].
  destruct (trimEnd s) as [|d r] eqn:Hr.
  - destruct (is_ws c) eqn:Hc; simpl; by rewrite ?Hc.
  - change (trimEnd (String c (String d r))) with
      (match trimEnd (String d r) with
       | EmptyString => if is_ws c then EmptyString else String c EmptyString
       | r' => String c r'
       end).
    by rewrite IH.
Qed.

Lemma trim_idemp s : JS.trim (JS.trim s) = JS.trim s.
Proof.
  unfold JS.trim.
  rewrite (trimStart_id (trimEnd (trimStart s)))
    by apply trimEnd_clean, trimStart_clean.
  apply trimEnd_idemp.
Qed.

(** Trimming removes white space only, so a filter that keeps no white
    space does not see it. *)
Lemma filter_chars_trimStart p s :
  (∀ c, p c = true → is_ws c = false) →
  filter_chars p (trimStart s) = filter_chars p s.
Proof.
  intros Hp. induction s as [|c s IH]; simpl; [done|].
  destruct (is_ws c) eqn:Hc; [|done].
  destruct (p c) eqn:Hpc; [|done].
  apply Hp in Hpc. congruence.
Qed.

Lemma filter_chars_trimEnd p s :
  (∀ c, p c = true → is_ws c = false) →
  filter_chars p (trimEnd s) = filter_chars p s.
Proof.
  intros Hp. induction s as [|c s IH]; simpl; [done|].
  destruct (trimEnd s) as [|d r] eqn:Hr.
  - simpl in IH. destruct (is_ws c) eqn:Hc.
    + destruct (p c) eqn:Hpc; [apply Hp in Hpc; congruence|]. done.
    + simpl. destruct (p c); by rewrite <-IH.
  - change (filter_chars p (String c (String d r))) with
      (if p c then String c (filter_chars p (String d r))
       else filter_chars p (String d r)).
    by rewrite IH.
Qed.

Lemma filter_chars_trim p s :
  (∀ c, p c = true → is_ws c = false) →
  filter_chars p (JS.trim s) = filter_chars p s.
Proof.
  intros Hp. unfold JS.trim.
  by rewrite filter_chars_trimEnd, filter_chars_trimStart.
Qed.

Lemma digit_not_ws c : is_digit c = true → is_ws c = false.
Proof. destruct c as [[] [] [] [] [] [] [] []]; by vm_compute. Qed.

Lemma is_ws_upper c : is_ws (upper c) = is_ws c.
Proof. destruct c as [[] [] [] [] [] [] [] []]; by vm_compute. Qed.

Lemma toUpperCase_trimStart s :
  toUpperCase (trimStart s) = trimStart (toUpperCase s).
Proof.
  induction s as [|c s IH]; simpl; [done|].
  rewrite is_ws_upper. by destruct (is_ws c).
Qed.

Lemma toUpperCase_trimEnd s :
  toUpperCase (trimEnd s) = trimEnd (toUpperCase s).
Proof.
  induction s as [|c s IH]; simpl; [done|].
  fold (toUpperCase s). rewrite <-IH, is_ws_upper.
  destruct (trimEnd s); simpl; [by destruct (is_ws c)|done].
Qed.

Lemma toUpperCase_trim s : toUpperCase (JS.trim s) = JS.trim (toUpperCase s).
Proof.
  unfold JS.trim. by rewrite toUpperCase_trimEnd, toUpperCase_trimStart.
Qed.


Lemma all_chars_filter p s : all_chars p (filter_chars p s).
Proof.
  induction s as [|c s IH]; simpl; [done|].
  destruct (p c) eqn:Hc; simpl; auto.
Qed.

Lemma all_chars_slice0 p n s : all_chars p s → all_chars p (slice0 n s).
Proof.
  revert s. induction n as [|n IH]; intros [|c s]; simpl; try done.
  intros [? ?]. auto.
Qed.

End JSFacts.

(** ** The Lead Normalizer *)

Section normalizer_facts.
Import JS TradeAppraisal JSFacts.
Variable now : string.


(** [normalizeLead] returns exactly when [vin] is a string or falsy. *)
Lemma normalizeLead_returns src :
  (is_string (src !! "vin") || negb (truthy (src !! "vin")) = true)
  ↔ ∃ lead, normalizeLead now src = Ret lead.
Proof.
  unfold normalizeLead, or_else.
  destruct (src !! "vin") as [[| [] | n | s | l | o]|] eqn:Hv; simpl;
    try destruct (n =? 0)%Z; try destruct (String.eqb s EmptyString); simpl;
    (split; intros H; [try done; by eexists | try done; by destruct H]).
Qed.


End normalizer_facts.



(** C7 at its failing input: a JSON number in [vin] makes [normalizeLead]
    throw the TypeError of [(12345).toUpperCase()], where every other
    field of the same object goes through [safe]. *)
Theorem normalizeLead_numeric_vin_throws :
  TradeAppraisal.normalizeLead "2026-01-05T10:00:00.000Z"
    (<["name" := JS.VStr "Al"]>
       (<["email" := JS.VStr "al@example.com"]>
          (<["phone" := JS.VStr "6175551234"]>
             (<["vin" := JS.VNum 12345]> ∅))))
  = JS.Throw (JS.TypeError "toUpperCase is not a function").
Proof. vm_compute. reflexivity. Qed.

(** ** The Form Intake Handler *)

Section handler_facts.
Import JS TradeAppraisal JSFacts.
Variable now : string.
Variable base64 : Buffer → string.
Variable Buffer_from : string → string → Buffer.
Variable Busboy : string → Buffer → option (list part).
Variable JSON_parse : string → option fields.
Variable sg_send : Message.t → bool.
Variable encodeURIComponent : string → string.
Variable env : Env.

Local Abbreviation parse_body := (parse_body Buffer_from Busboy JSON_parse).
Local Abbreviation handler :=
  (handler now base64 Buffer_from Busboy JSON_parse sg_send encodeURIComponent env).

Local Arguments str_or : simpl never.
Local Arguments safe : simpl never.
Local Arguments normalizeLead : simpl never.
Local Arguments toAttachments : simpl never.
Local Arguments buildEmailBodies : simpl never.
Local Arguments backup : simpl never.






End handler_facts.

(** ** The multipart parser *)

Section parser_facts.
Import JS TradeAppraisal JSFacts.







Variable Buffer_from : string → string → Buffer.
Variable Busboy : string → Buffer → option (list part).


End parser_facts.

(** ** The attachments of the Form Intake Handler *)

Section attachment_facts.
Import JS TradeAppraisal JSFacts.
Variable now : string.
Variable base64 : Buffer → string.
Variable Buffer_from : string → string → Buffer.
Variable Busboy : string → Buffer → option (list part).
Variable JSON_parse : string → option fields.
Variable sg_send : Message.t → bool.
Variable encodeURIComponent : string → string.
Variable env : Env.

Local Abbreviation parse_body := (parse_body Buffer_from Busboy JSON_parse).
Local Abbreviation handler :=
  (handler now base64 Buffer_from Busboy JSON_parse sg_send encodeURIComponent env).

Lemma filter_all {A} (P : A → Prop) `{∀ x, Decision (P x)} (l : list A) :
  Forall P l → filter P l = l.
Proof.
  induction 1 as [|x l Hx _ IH]; [done|].
  by rewrite filter_cons_True, IH.
Qed.




End attachment_facts.






(** ** The Attachment Fetcher *)

Section fetcher_facts.
Import JS SubmissionCreated.
Variable Buf : Type.
Variable byteLength : Buf → N.
Variable base64 : Buf → string.
Variable fetch : nat → string → outcome (HttpResponse Buf).

Local Abbreviation callback := (callback byteLength base64 fetch).
Local Abbreviation run := (run byteLength base64 fetch).
Local Abbreviation processAttachments := (processAttachments byteLength base64 fetch).
Local Abbreviation downloaded := (downloaded fetch).
Local Abbreviation fits := (fits byteLength fetch).
Local Abbreviation fit_step := (fit_step byteLength fetch).
Local Abbreviation first_fit := (first_fit byteLength fetch).
Local Abbreviation payload := (payload base64).
Local Abbreviation payload_if := (payload_if base64 fetch).
Local Abbreviation admitted_payloads := (admitted_payloads base64 fetch).
Local Abbreviation settled := (settled base64 fetch).
Local Abbreviation size_of := (size_of byteLength fetch).
Local Abbreviation sum_sizes := (sum_sizes byteLength fetch).

(** The callback is one step of the first fit on the shared total. *)
Lemma callback_fits considered i file total :
  considered !! i = Some file →
  callback i file total
  = match fits considered total i with
    | Some size =>
        ((total + size)%N, Ret (buffer ← downloaded i file; Some (payload file buffer)))
    | None => (total, Ret None)
    end.
Proof.
  intros Hfile.
  unfold SubmissionCreated.callback, SubmissionCreated.fits,
    SubmissionCreated.downloaded.
  rewrite Hfile. simpl.
  destruct (fetch i (Descriptor.url file)) as [response|]; simpl; [|done].
  destruct (ok response); simpl; [|done].
  destruct (arrayBuffer response) as [buffer|]; simpl; [|done].
  unfold MAX_EACH_BYTES, MAX_TOTAL_BYTES.
  destruct (N.ltb_spec (MAX_EACH_MB * 1024 * 1024) (byteLength buffer)).
  { rewrite decide_False by lia. done. }
  destruct (N.ltb_spec (MAX_TOTAL_MB * 1024 * 1024) (total + byteLength buffer)).
  { rewrite decide_False by lia. done. }
  rewrite decide_True by lia. done.
Qed.

Lemma resume_fits considered st i file :
  considered !! i = Some file →
  resume byteLength base64 fetch considered st i
  = match fits considered st.1 i with
    | Some size =>
        ((st.1 + size)%N,
         <[i := Some (Ret (buffer ← downloaded i file; Some (payload file buffer)))]> st.2)
    | None => (st.1, <[i := Some (Ret None)]> st.2)
    end.
Proof.
  intros Hfile. unfold SubmissionCreated.resume.
  rewrite Hfile, (callback_fits considered i file _ Hfile).
  by destruct (fits considered st.1 i).
Qed.

Lemma payload_if_snoc considered admitted i j :
  j ≠ i → payload_if considered (admitted ++ [i]) j = payload_if considered admitted j.
Proof.
  intros Hne. unfold SubmissionCreated.payload_if.
  destruct (decide (j ∈ admitted)) as [Hin|Hin].
  - rewrite decide_True; [done|]. apply elem_of_app. by left.
  - rewrite decide_False; [done|].
    intros [?|?%list_elem_of_singleton]%elem_of_app; done.
Qed.

(** The run of the callbacks refines the first fit along the same order. *)
Lemma run_first_fit considered order :
  NoDup order →
  (∀ i, i ∈ order → i < length considered) →
  (run order considered).1 = (first_fit considered order).1
  ∧ (∀ i, i ∈ (first_fit considered order).2 → i ∈ order)
  ∧ settled considered order (first_fit considered order).2 (run order considered).2.
Proof.
  induction order as [|i order IH] using rev_ind; intros Hnd Hlt.
  - unfold SubmissionCreated.settled, SubmissionCreated.run, SubmissionCreated.first_fit. simpl.
    rewrite length_replicate.
    split; [done|]. split; [by intros i ?%elem_of_nil|]. split; [done|].
    intros j Hj. by rewrite lookup_replicate_2.
  - apply NoDup_app in Hnd as (Hnd & Hfresh & _).
    assert (i ∉ order) as Hi.
    { intros Hin. apply (Hfresh i Hin). by apply list_elem_of_singleton. }
    destruct IH as (Htot & Hsub & Hlen & Hps);
      [done | intros k Hk; apply Hlt, elem_of_app; by left |].
    assert (i < length considered) as Hilt.
    { apply Hlt, elem_of_app. right. by apply list_elem_of_singleton. }
    destruct (lookup_lt_is_Some_2 considered i Hilt) as [file Hfile].
    unfold SubmissionCreated.run, SubmissionCreated.first_fit in *.
    rewrite !foldl_app. simpl.
    set (st := foldl (resume byteLength base64 fetch considered) _ order) in *.
    set (sp := foldl (fit_step considered) _ order) in *.
    rewrite (resume_fits considered st i file Hfile), Htot.
    unfold SubmissionCreated.fit_step.
    destruct (fits considered sp.1 i) as [size|] eqn:Hfit; simpl.
    + split; [done|]. split.
      { intros k [?|?]%elem_of_app; apply elem_of_app; auto. }
      split; [by rewrite length_insert|].
      intros j Hj. destruct (decide (j = i)) as [->|Hne].
      * rewrite list_lookup_insert_eq by lia.
        rewrite decide_True by (apply elem_of_app; right; by apply list_elem_of_singleton).
        unfold SubmissionCreated.payload_if.
        rewrite decide_True by (apply elem_of_app; right; by apply list_elem_of_singleton).
        by rewrite Hfile.
      * rewrite list_lookup_insert_ne by done.
        rewrite Hps by done. rewrite payload_if_snoc by done.
        destruct (decide (j ∈ order)) as [Hin|Hin].
        -- rewrite decide_True; [done|]. apply elem_of_app. by left.
        -- rewrite decide_False; [done|].
           intros [?|?%list_elem_of_singleton]%elem_of_app; done.
    + split; [done|]. split.
      { intros k Hk. apply elem_of_app. left. by apply Hsub. }
      split; [by rewrite length_insert|].
      intros j Hj. destruct (decide (j = i)) as [->|Hne].
      * rewrite list_lookup_insert_eq by lia.
        rewrite decide_True by (apply elem_of_app; right; by apply list_elem_of_singleton).
        unfold SubmissionCreated.payload_if.
        rewrite decide_False; [done|]. intros Hin. by apply Hi, Hsub.
      * rewrite list_lookup_insert_ne by done.
        rewrite Hps by done.
        destruct (decide (j ∈ order)) as [Hin|Hin].
        -- rewrite decide_True; [done|]. apply elem_of_app. by left.
        -- rewrite decide_False; [done|].
           intros [?|?%list_elem_of_singleton]%elem_of_app; done.
Qed.

Lemma Promise_all_settled {A B} (f : A → B) (l : list A) :
  Promise_all ((λ x, Some (Ret (f x))) <$> l) = Some (Ret (f <$> l)).
Proof. induction l as [|x l IH]; csimpl; [done|]. by rewrite IH. Qed.

Lemma omap_id_fmap {A B} (f : A → option B) (l : list A) :
  omap id (f <$> l) = omap f l.
Proof. induction l as [|x l IH]; csimpl; [done|]. rewrite IH. by destruct (f x). Qed.

(** Once every callback has resumed, [processAttachments] resolves with
    the payloads of the files the first fit along [order] admits, in input
    order. *)
Lemma processAttachments_refines order files :
  order ≡ₚ seq 0 (length (take MAX_ATTACH files)) →
  processAttachments order files
  = Some (Ret (admitted_payloads (take MAX_ATTACH files)
                 (first_fit (take MAX_ATTACH files) order).2)).
Proof.
  intros Hperm. unfold SubmissionCreated.processAttachments.
  set (considered := take MAX_ATTACH files) in *.
  destruct (run_first_fit considered order) as (_ & _ & Hlen & Hps).
  { rewrite Hperm. apply NoDup_seq. }
  { intros i Hi. rewrite Hperm in Hi. apply elem_of_seq in Hi. lia. }
  assert ((run order considered).2
          = (λ j, Some (Ret (payload_if considered (first_fit considered order).2 j)))
            <$> seq 0 (length considered)) as ->.
  { apply list_eq. intros j. rewrite list_lookup_fmap.
    destruct (decide (j < length considered)) as [Hj|Hj].
    - rewrite Hps, lookup_seq_lt by done. simpl.
      rewrite decide_True; [done|]. rewrite Hperm. apply elem_of_seq. lia.
    - rewrite lookup_seq_ge by lia. apply lookup_ge_None. lia. }
  rewrite Promise_all_settled. simpl.
  by rewrite omap_id_fmap.
Qed.

(** What the first fit admits was retrieved and is within the cap for one
    file, and the total it counts is within the cap for all. *)
Lemma first_fit_sound considered order :
  ((first_fit considered order).1 ≤ MAX_TOTAL_BYTES)%N
  ∧ ∀ i, i ∈ (first_fit considered order).2 →
      ∃ file buffer,
        considered !! i = Some file
        ∧ downloaded i file = Some buffer
        ∧ (byteLength buffer ≤ MAX_EACH_BYTES)%N.
Proof.
  induction order as [|k order IH] using rev_ind.
  - split; [by vm_compute|]. by intros i ?%elem_of_nil.
  - unfold SubmissionCreated.first_fit in *. rewrite foldl_app. simpl.
    set (sp := foldl (fit_step considered) _ order) in *.
    destruct IH as [Htot Hadm].
    unfold SubmissionCreated.fit_step.
    destruct (fits considered sp.1 k) as [size|] eqn:Hfit; simpl; [|done].
    unfold SubmissionCreated.fits in Hfit.
    destruct (considered !! k) as [file|] eqn:Hfile; simpl in Hfit; [|done].
    destruct (downloaded k file) as [buffer|] eqn:Hdl; simpl in Hfit; [|done].
    case_decide as Hcaps; [|done]. destruct Hcaps as [Heach Hall].
    injection Hfit as <-. split; [done|].
    intros i [Hin|Hin%list_elem_of_singleton]%elem_of_app; [by apply Hadm|].
    subst i. by exists file, buffer.
Qed.


(** *** No rejection *)

(** The callback always returns: every path of its [try] block ends in a
    [return], and its [catch] returns [null]. *)
Lemma callback_returns i file total :
  ∃ r, (callback i file total).2 = Ret r.
Proof.
  unfold SubmissionCreated.callback.
  destruct (fetch i (Descriptor.url file)) as [response|]; [|by eexists].
  destruct (ok response); simpl; [|by eexists].
  destruct (arrayBuffer response) as [buffer|]; [|by eexists].
  repeat case_match; by eexists.
Qed.

Lemma run_no_reject order considered : no_reject (run order considered).2.
Proof.
  unfold SubmissionCreated.run.
  induction order as [|i order IH] using rev_ind.
  - simpl. apply Forall_replicate. by intros e.
  - rewrite foldl_app. simpl.
    set (st := foldl _ _ order) in *.
    unfold SubmissionCreated.resume.
    destruct (considered !! i) as [file|]; [|done].
    destruct (callback_returns i file st.1) as [r Hr].
    destruct (callback i file st.1) as [total r']. simpl in *. subst r'.
    apply Forall_insert; [done|]. by intros e.
Qed.

Lemma Promise_all_no_reject {A} (ps : list (option (outcome A))) e :
  no_reject ps → Promise_all ps ≠ Some (Throw e).
Proof.
  induction 1 as [|p ps Hp Hps IH]; [done|]. simpl.
  destruct p as [[a|e']|]; [| by destruct (Hp e') |];
    destruct (Promise_all ps) as [[l|e'']|]; try done; intros [= ->]; done.
Qed.

(** Whatever the order of the downloads, and whether or not all have
    completed, [processAttachments] does not reject. *)
Lemma processAttachments_no_throw order files e :
  processAttachments order files ≠ Some (Throw e).
Proof.
  unfold SubmissionCreated.processAttachments.
  pose proof (run_no_reject order (take MAX_ATTACH files)) as Hno.
  destruct (Promise_all _) as [[results|e']|] eqn:Hall; simpl; try done.
  by apply Promise_all_no_reject with (e := e') in Hno.
Qed.

Lemma fetch_failed_downloaded i file :
  fetch_failed (fetch i (Descriptor.url file)) → downloaded i file = None.
Proof.
  unfold SubmissionCreated.fetch_failed, SubmissionCreated.downloaded.
  destruct (fetch i (Descriptor.url file)) as [response|]; [|done].
  by intros ->.
Qed.

(** The callback of a failed request returns [null]: it does not throw
    and leaves the shared total as it was. *)
Lemma callback_failed i file total :
  fetch_failed (fetch i (Descriptor.url file)) →
  callback i file total = (total, Ret None).
Proof.
  unfold SubmissionCreated.fetch_failed, SubmissionCreated.callback.
  destruct (fetch i (Descriptor.url file)) as [response|]; [|done].
  by intros ->.
Qed.

Lemma fit_step_failed considered st i file :
  considered !! i = Some file → downloaded i file = None →
  fit_step considered st i = st.
Proof.
  intros Hfile Hdl. unfold SubmissionCreated.fit_step, SubmissionCreated.fits.
  by rewrite Hfile; simpl; rewrite Hdl.
Qed.

(** A failed download can be left out of the schedule: the first fit is
    the same without it. *)
Lemma first_fit_skip considered order i file :
  considered !! i = Some file → downloaded i file = None →
  first_fit considered order = first_fit considered (filter (.≠ i) order).
Proof.
  intros Hfile Hdl. unfold SubmissionCreated.first_fit.
  generalize (0%N, @nil nat). induction order as [|k order IH]; intros st; [done|].
  simpl. destruct (decide (k = i)) as [->|Hne].
  - rewrite filter_cons_False by (by intros ?).
    by rewrite (fit_step_failed considered st i file).
  - rewrite filter_cons_True by done. simpl. apply IH.
Qed.

Lemma sum_sizes_app considered l k :
  sum_sizes considered (l ++ k)
  = (sum_sizes considered l + sum_sizes considered k)%N.
Proof. induction l as [|x l IH]; simpl; [done|]. rewrite IH. lia. Qed.

Lemma sum_sizes_submseteq considered l k :
  l ⊆+ k → (sum_sizes considered l ≤ sum_sizes considered k)%N.
Proof. induction 1; simpl in *; lia. Qed.

(** When every file is within the cap for one file and all together are
    within the cap for all, the first fit admits every retrieved file,
    whatever the order. *)
Lemma first_fit_all considered order :
  NoDup order →
  (∀ j, j ∈ order → j < length considered) →
  (∀ j, (size_of considered j ≤ MAX_EACH_BYTES)%N) →
  (sum_sizes considered (seq 0 (length considered)) ≤ MAX_TOTAL_BYTES)%N →
  (first_fit considered order).1 = sum_sizes considered order
  ∧ ∀ j, j ∈ order → is_Some (considered !! j ≫= downloaded j) →
      j ∈ (first_fit considered order).2.
Proof.
  intros Hnd Hlt Heach Hall.
  induction order as [|k order IH] using rev_ind; [by split; [|intros j ?%elem_of_nil]|].
  assert (order ++ [k] ⊆+ seq 0 (length considered)) as Hsub.
  { apply NoDup_submseteq; [done|]. intros j Hj. apply elem_of_seq.
    specialize (Hlt j Hj). lia. }
  apply sum_sizes_submseteq with (considered := considered) in Hsub.
  rewrite sum_sizes_app in Hsub. simpl in Hsub.
  apply NoDup_app in Hnd as (Hnd & _ & _).
  destruct IH as [Htot Hadm];
    [done | intros j Hj; apply Hlt, elem_of_app; by left |].
  unfold SubmissionCreated.first_fit in *. rewrite foldl_app. simpl.
  set (sp := foldl (fit_step considered) _ order) in *.
  rewrite sum_sizes_app. simpl.
  specialize (Heach k). unfold SubmissionCreated.size_of in *.
  unfold SubmissionCreated.fit_step, SubmissionCreated.fits.
  destruct (considered !! k) as [file|] eqn:Hfile; simpl in *.
  - destruct (downloaded k file) as [buffer|] eqn:Hdl; simpl in *.
    + rewrite decide_True by (split; lia). simpl.
      split; [lia|].
      intros j [Hin|Hin%list_elem_of_singleton]%elem_of_app Hsome;
        apply elem_of_app; [left; by apply Hadm | right; by apply list_elem_of_singleton].
    + split; [lia|].
      intros j [Hin|Hin%list_elem_of_singleton]%elem_of_app Hsome;
        [by apply Hadm|].
      subst j. rewrite Hfile in Hsome. simpl in Hsome. rewrite Hdl in Hsome.
      by destruct Hsome.
  - split; [lia|].
    intros j [Hin|Hin%list_elem_of_singleton]%elem_of_app Hsome;
      [by apply Hadm|].
    subst j. rewrite Hfile in Hsome. by destruct Hsome.
Qed.

Lemma admitted_payloads_ext considered adm1 adm2 :
  (∀ j, j < length considered → j ∈ adm1 ↔ j ∈ adm2) →
  admitted_payloads considered adm1 = admitted_payloads considered adm2.
Proof.
  intros Hiff. unfold SubmissionCreated.admitted_payloads.
  assert (∀ l : list nat, (∀ j, j ∈ l → j < length considered) →
               omap (payload_if considered adm1) l
               = omap (payload_if considered adm2) l) as Hext.
  { induction l as [|x l IH]; intros Hl; csimpl; [done|].
    rewrite IH by (intros j Hj; apply Hl; by right).
    unfold SubmissionCreated.payload_if.
    assert (x < length considered) as Hx by (apply Hl; by left).
    destruct (decide (x ∈ adm1)) as [H1|H1], (decide (x ∈ adm2)) as [H2|H2];
      try done; by apply Hiff in H1 || apply Hiff in H2. }
  apply Hext. intros j Hj%elem_of_seq. lia.
Qed.

(** C8.  Let the request of one considered descriptor fail (a network
    error or a response that is not OK) and let every download complete in
    some order.  Then [processAttachments] returns, and in no order does it
    throw; the failed file is not admitted and takes nothing from the
    budget: the result is what the same schedule gives with that file left
    out; and when the other files were retrieved, are each within
    MAX_EACH_BYTES and together within MAX_TOTAL_BYTES, the result is the
    payloads of all of them, in input order. *)
Theorem failed_fetch_omits_one order files i file :
  order ≡ₚ seq 0 (length (take MAX_ATTACH files)) →
  take MAX_ATTACH files !! i = Some file →
  fetch_failed (fetch i (Descriptor.url file)) →
  (∀ order' e, processAttachments order' files ≠ Some (Throw e))
  ∧ ∃ results,
    processAttachments order files = Some (Ret results)
    ∧ (∀ total, callback i file total = (total, Ret None))
    ∧ (i ∉ (first_fit (take MAX_ATTACH files) order).2)
    ∧ results
      = admitted_payloads (take MAX_ATTACH files)
          (first_fit (take MAX_ATTACH files) (filter (.≠ i) order)).2
    ∧ ((∀ j file', j ≠ i → take MAX_ATTACH files !! j = Some file' →
          ∃ buffer, downloaded j file' = Some buffer
                    ∧ (byteLength buffer ≤ MAX_EACH_BYTES)%N) →
       (sum_sizes (take MAX_ATTACH files)
          (seq 0 (length (take MAX_ATTACH files))) ≤ MAX_TOTAL_BYTES)%N →
       results
       = admitted_payloads (take MAX_ATTACH files)
           (filter (.≠ i) (seq 0 (length (take MAX_ATTACH files))))).
Proof.
  intros Hperm Hfile Hfail.
  set (considered := take MAX_ATTACH files) in *.
  pose proof (fetch_failed_downloaded i file Hfail) as Hdl.
  split; [intros order' e; apply processAttachments_no_throw|].
  exists (admitted_payloads considered (first_fit considered order).2).
  split; [by apply processAttachments_refines|].
  split.
  { intros total. by apply callback_failed. }
  split.
  { intros Hin.
    destruct (first_fit_sound considered order) as [_ Hadm].
    destruct (Hadm i Hin) as (file' & buffer & Hfile' & Hdl' & _).
    congruence. }
  split; [by rewrite (first_fit_skip considered order i file)|].
  intros Hothers Hall.
  assert (∀ j, (size_of considered j ≤ MAX_EACH_BYTES)%N) as Heach.
  { intros j. unfold SubmissionCreated.size_of.
    destruct (considered !! j) as [file'|] eqn:Hfile'; simpl; [|by vm_compute].
    destruct (decide (j = i)) as [->|Hne].
    - assert (file' = file) as -> by congruence. rewrite Hdl. by vm_compute.
    - destruct (Hothers j file' Hne Hfile') as (buffer & -> & Hle). done. }
  destruct (first_fit_all considered order) as [_ Hadm]; try done.
  { rewrite Hperm. apply NoDup_seq. }
  { intros j Hj. rewrite Hperm in Hj. apply elem_of_seq in Hj. lia. }
  apply admitted_payloads_ext. intros j Hj. split.
  - intros Hin. apply list_elem_of_filter. split.
    + intros ->. destruct (first_fit_sound considered order) as [_ Hs].
      destruct (Hs i Hin) as (file' & buffer & Hfile' & Hdl' & _). congruence.
    + apply elem_of_seq. lia.
  - intros [Hne _]%list_elem_of_filter.
    apply Hadm; [rewrite Hperm; apply elem_of_seq; lia|].
    destruct (lookup_lt_is_Some_2 considered j Hj) as [file' Hfile'].
    rewrite Hfile'. simpl.
    destruct (Hothers j file' Hne Hfile') as (buffer & -> & _). by eexists.
Qed.

End fetcher_facts.



(** The second of three requests is answered 404; the first and the third
    are admitted. *)
Lemma failed_fetch_omits_one_witness :
  let fetch :=
    FetchExamples.net [Some (5 * FetchExamples.MiB); None;
                       Some (3 * FetchExamples.MiB)]%N in
  [2; 1; 0] ≡ₚ seq 0 (length (take SubmissionCreated.MAX_ATTACH FetchExamples.three))
  ∧ take SubmissionCreated.MAX_ATTACH FetchExamples.three !! 1
    = Some (FetchExamples.photo "b.jpg")
  ∧ SubmissionCreated.fetch_failed
      (fetch 1 (SubmissionCreated.Descriptor.url (FetchExamples.photo "b.jpg")))
  ∧ SubmissionCreated.processAttachments FetchExamples.byteLength
      FetchExamples.base64 fetch [2; 1; 0] FetchExamples.three
    = Some (JS.Ret [FetchExamples.sent "a.jpg"; FetchExamples.sent "c.jpg"]).
Proof.
  intros fetch.
  assert ([2; 1; 0] ≡ₚ seq 0 (length (take SubmissionCreated.MAX_ATTACH FetchExamples.three)))
    as Hperm by (apply (bool_decide_unpack _); vm_compute; exact I).
  assert (SubmissionCreated.fetch_failed
            (fetch 1 (SubmissionCreated.Descriptor.url (FetchExamples.photo "b.jpg"))))
    as Hfail by reflexivity.
  split; [exact Hperm|]. split; [reflexivity|]. split; [exact Hfail|].
  destruct (failed_fetch_omits_one N FetchExamples.byteLength FetchExamples.base64
              fetch [2; 1; 0] FetchExamples.three 1 (FetchExamples.photo "b.jpg")
              Hperm eq_refl Hfail)
    as (_ & results & -> & _ & _ & _ & Hothers).
  rewrite Hothers; [vm_compute; reflexivity | | vm_compute; discriminate].
  intros [|[|[|j]]] file' Hj Hfile'; try done; simplify_eq/=;
    eexists; (split; [reflexivity | vm_compute; discriminate]).
Defined.

(** ** escape *)

Section escape_facts.
Import JS JSFacts.

Lemma all_chars_app p s t :
  all_chars p s → all_chars p t → all_chars p (s +:+ t).
Proof. induction s as [|c s IH]; simpl; [done|]. intros [? ?] ?. auto. Qed.

Lemma replace_all_keeps p c r s :
  all_chars p r → all_chars p s → all_chars p (replace_all c r s).
Proof.
  intros Hr. induction s as [|d s IH]; simpl; [done|]. intros [Hd Hs].
  destruct (Ascii.eqb d c); [apply all_chars_app|]; simpl; auto.
Qed.

Lemma replace_all_removes c r s :
  all_chars (λ d, negb (Ascii.eqb d c)) r →
  all_chars (λ d, negb (Ascii.eqb d c)) (replace_all c r s).
Proof.
  intros Hr. induction s as [|d s IH]; simpl; [done|].
  destruct (Ascii.eqb d c) eqn:Hd; [by apply all_chars_app|].
  simpl. by rewrite Hd.
Qed.

Lemma all_chars_and p q s :
  all_chars p s → all_chars q s → all_chars (λ c, p c && q c) s.
Proof.
  induction s as [|c s IH]; simpl; [done|].
  intros [-> ?] [-> ?]. auto.
Qed.

(** What goes through [escape] has no angle bracket left. *)
Lemma escape_no_angle s :
  all_chars (λ c, negb (Ascii.eqb c "<") && negb (Ascii.eqb c ">"))
    (TradeAppraisal.escape s).
Proof.
  unfold TradeAppraisal.escape. apply all_chars_and.
  - apply replace_all_keeps; [by vm_compute|].
    apply replace_all_removes. by vm_compute.
  - apply replace_all_removes. by vm_compute.
Qed.

End escape_facts.

(** ** The Email Compositors *)

Section compositor_facts.
Import JS.

Lemma StronglySorted_filter {A} (R : relation A) (P : A → Prop)
    `{∀ x, Decision (P x)} (l : list A) :
  StronglySorted R l → StronglySorted R (filter P l).
Proof.
  induction 1 as [|x l Hl IH Hx]; [constructor|].
  rewrite filter_cons. case_decide; [|done].
  constructor; [done|].
  apply Forall_forall. intros y [_ Hy]%list_elem_of_filter.
  by eapply Forall_forall.
Qed.

(** Filtering commutes with sorting by a total order. *)
Lemma filter_merge_sort (P : string → Prop) `{∀ x, Decision (P x)} (l : list string) :
  filter P (merge_sort String.le l) = merge_sort String.le (filter P l).
Proof.
  apply (StronglySorted_unique String.le).
  - apply StronglySorted_filter, StronglySorted_merge_sort; apply _.
  - apply StronglySorted_merge_sort; apply _.
  - by rewrite !merge_sort_Permutation.
Qed.

Lemma omap_filter_Some {A B} (f : A → option B) (l : list A) :
  omap f l = omap f (filter (λ x, is_Some (f x)) l).
Proof.
  induction l as [|x l IH]; [done|]. rewrite filter_cons. csimpl.
  destruct (f x) as [y|] eqn:Hx.
  - rewrite decide_True by (by eexists). csimpl. by rewrite Hx, IH.
  - rewrite decide_False by (by intros [? ?]). done.
Qed.

(** *** buildEmailBodies *)

Lemma trade_row m k :
  (if TradeAppraisal.nonblank (m !! k) then Some (k, String_ (m !! k)) else None)
  = spec_row to_String m k.
Proof. unfold spec_row. by destruct (m !! k). Qed.

Lemma trade_first_loop m l rows (inc : gset string) :
  foldl (λ '(rows, included) k,
           let v := m !! k in
           if TradeAppraisal.nonblank v
           then (rows ++ [(k, String_ v)], included ∪ {[k]})
           else (rows, included))
        (rows, inc) l
  = (rows ++ omap (spec_row to_String m) l,
     inc ∪ list_to_set (filter (λ k, is_Some (spec_row to_String m k)) l)).
Proof.
  revert rows inc. induction l as [|k l IH]; intros rows inc.
  - simpl. rewrite app_nil_r. f_equal.
    by rewrite (right_id_L ∅ (∪)).
  - rewrite filter_cons. csimpl. rewrite <-(trade_row m k).
    destruct (TradeAppraisal.nonblank (m !! k)); rewrite IH.
    + rewrite decide_True by (by eexists). rewrite <-app_assoc. simpl.
      f_equal. by rewrite (assoc_L (∪)).
    + rewrite decide_False by (by intros [? ?]). done.
Qed.

Lemma trade_second_loop m l rows :
  foldl (λ rows k,
           let v := m !! k in
           if TradeAppraisal.nonblank v then rows ++ [(k, String_ v)] else rows)
        rows l
  = rows ++ omap (spec_row to_String m) l.
Proof.
  revert rows. induction l as [|k l IH]; intros rows.
  - simpl. by rewrite app_nil_r.
  - csimpl. rewrite <-(trade_row m k).
    destruct (TradeAppraisal.nonblank (m !! k)); rewrite IH; [|done].
    by rewrite <-app_assoc.
Qed.

Lemma trade_rows_spec m :
  TradeAppraisal.rows_of m = spec_rows [] TradeAppraisal.preferred to_String m.
Proof.
  unfold TradeAppraisal.rows_of, spec_rows.
  rewrite trade_first_loop, trade_second_loop, app_nil_l.
  rewrite (filter_all (.∉ []) TradeAppraisal.preferred)
    by (apply Forall_forall; intros; apply not_elem_of_nil).
  f_equal.
  unfold TradeAppraisal.sorted_keys.
  rewrite (omap_filter_Some _ (merge_sort _ _)).
  rewrite (omap_filter_Some _ (merge_sort _ (filter (λ k, (k ∉ _) ∧ (k ∉ [])) _))).
  rewrite !filter_merge_sort, !list_filter_filter.
  f_equal. f_equal. apply list_filter_iff. intros k.
  rewrite bool_decide_eq_true, elem_of_union, elem_of_list_to_set, list_elem_of_filter.
  split.
  - intros [Hk Hn]. split; [done|]. split; [|apply not_elem_of_nil].
    intros Hp. apply Hn. right. done.
  - intros [Hk [Hn _]]. split; [done|].
    intros [?%elem_of_empty|[_ ?]]; done.
Qed.

(** *** createEmailContent *)

Local Arguments SubmissionCreated.hasVal : simpl never.
Local Arguments TradeAppraisal.nonblank : simpl never.







End compositor_facts.


(** C4 at its failing input: the make of the vehicle is written into the
    heading paragraph of the markup as it is, where the trim next to it
    and the same value in its table row are escaped. *)
Theorem html_heading_not_escaped :
  let rawData := <["make" := JS.VStr "<script>alert(1)</script>"]> complete_fields in
  ∃ msg r,
    TradeAppraisal.handler Examples.now Examples.base64 Examples.Buffer_from
      Examples.no_Busboy (Examples.JSON_is rawData) Examples.sg_send
      Examples.encodeURIComponent Examples.env Examples.json_event
    = ([TradeAppraisal.SgSend msg], JS.Ret r)
    ∧ JS.includes (TradeAppraisal.Message.html msg) "<script>alert(1)</script>" = true
    ∧ JS.includes (TradeAppraisal.Message.html msg)
        "&lt;script&gt;alert(1)&lt;/script&gt;</td>" = true.
Proof.
  intros rawData. eexists _, _. split; [vm_compute; reflexivity|].
  split; vm_compute; reflexivity.
Qed.

(** The Submission Relay Handler writes the URL and the name of a photo
    into its markup as they are. *)
Lemma relay_photos_not_escaped :
  JS.includes
    (SubmissionCreated.email_html ∅
       [SubmissionCreated.Descriptor.mk "https://files.example/a.jpg"
          (Some "<b>a</b>.jpg") None])
    "<b>a</b>.jpg</a>" = true.
Proof. vm_compute. reflexivity. Qed.


(** * Further properties *)

(** ** escape, in one pass and without loss *)

Section escape_more.
Import JS JSFacts.

Lemma str_app_assoc (s t u : string) : (s +:+ t) +:+ u = s +:+ (t +:+ u).
Proof.
  induction s as [|c s IH]; [done|].
  change (String c (s +:+ t) +:+ u = String c (s +:+ (t +:+ u))).
  change (String c ((s +:+ t) +:+ u) = String c (s +:+ (t +:+ u))).
  by rewrite IH.
Qed.

Lemma replace_all_app c r s t :
  replace_all c r (s +:+ t) = replace_all c r s +:+ replace_all c r t.
Proof.
  induction s as [|d s IH]; [done|].
  change (String d s +:+ t) with (String d (s +:+ t)).
  cbn [replace_all]. rewrite IH. destruct (Ascii.eqb d c); [|done].
  by rewrite str_app_assoc.
Qed.

Lemma escape_app s t :
  TradeAppraisal.escape (s +:+ t) = TradeAppraisal.escape s +:+ TradeAppraisal.escape t.
Proof. unfold TradeAppraisal.escape. by rewrite !replace_all_app. Qed.

Lemma escape_one c : TradeAppraisal.escape (String c EmptyString) = entity c.
Proof. destruct c as [[] [] [] [] [] [] [] []]; by vm_compute. Qed.

(** X1.  The three replacements in a row are one pass over the characters:
    the ampersand of an entity written for [<] or [>] is not escaped
    again, because [&] is replaced first. *)
Theorem escape_single_pass s : TradeAppraisal.escape s = escape_chars s.
Proof.
  induction s as [|c s IH]; [done|].
  change (String c s) with (String c EmptyString +:+ s).
  rewrite escape_app, escape_one, IH. done.
Qed.

Lemma unescape_entity c s : unescape (entity c +:+ s) = String c (unescape s).
Proof. destruct c as [[] [] [] [] [] [] [] []]; by vm_compute. Qed.

Lemma unescape_escape s : unescape (TradeAppraisal.escape s) = s.
Proof.
  induction s as [|c s IH]; [done|].
  change (String c s) with (String c EmptyString +:+ s).
  by rewrite escape_app, escape_one, unescape_entity, IH.
Qed.

(** X2.  Escaping loses nothing: two texts with the same escaped form are the
    same text. *)
Theorem escape_injective s t :
  TradeAppraisal.escape s = TradeAppraisal.escape t → s = t.
Proof. intros H. by rewrite <-(unescape_escape s), H, unescape_escape. Qed.

End escape_more.

(** ** normalizeLead on its own result *)

Section normalize_more.
Import JS TradeAppraisal JSFacts.

Lemma upper_idemp c : upper (upper c) = upper c.
Proof. destruct c as [[] [] [] [] [] [] [] []]; by vm_compute. Qed.

Lemma toUpperCase_idemp s : toUpperCase (toUpperCase s) = toUpperCase s.
Proof.
  unfold toUpperCase. induction s as [|c s IH]; [done|].
  cbn [map_chars]. by rewrite upper_idemp, IH.
Qed.

Lemma filter_chars_all p s : all_chars p s → filter_chars p s = s.
Proof. induction s as [|c s IH]; [done|]. simpl. intros [-> ?]. by rewrite IH. Qed.

Lemma slice0_idemp n s : slice0 n (slice0 n s) = slice0 n s.
Proof.
  revert s. induction n as [|n IH]; intros [|c s]; simpl; try done.
  by rewrite IH.
Qed.

Lemma safe_fixed v : safe (Some (VStr (safe v))) = safe v.
Proof. destruct v as [[]|]; simpl; try done. apply trim_idemp. Qed.

Lemma lead_obj_lookup lead :
  lead_obj lead !! "name" = Some (VStr (name lead))
  ∧ lead_obj lead !! "email" = Some (VStr (email lead))
  ∧ lead_obj lead !! "phone" = Some (VStr (phone lead))
  ∧ lead_obj lead !! "phoneRaw" = None
  ∧ lead_obj lead !! "vin" = Some (VStr (vin lead))
  ∧ lead_obj lead !! "year" = Some (VStr (year lead))
  ∧ lead_obj lead !! "make" = Some (VStr (make lead))
  ∧ lead_obj lead !! "model" = Some (VStr (model lead))
  ∧ lead_obj lead !! "trim" = Some (VStr (trim lead))
  ∧ lead_obj lead !! "mileage" = Some (VStr (mileage lead))
  ∧ lead_obj lead !! "extColor" = Some (VStr (extColor lead))
  ∧ lead_obj lead !! "intColor" = Some (VStr (intColor lead))
  ∧ lead_obj lead !! "referrer" = Some (VStr (referrer lead))
  ∧ lead_obj lead !! "landingPage" = Some (VStr (landingPage lead)).
Proof. destruct lead. repeat split; vm_compute; reflexivity. Qed.

Lemma call_toUpperCase_string v :
  call_toUpperCase (or_else (Some (VStr v)) (Some (VStr EmptyString)))
  = Ret (toUpperCase v).
Proof.
  unfold or_else. simpl. destruct (String.eqb v EmptyString) eqn:Hv; simpl; [|done].
  by apply String.eqb_eq in Hv as ->.
Qed.

Lemma call_toUpperCase_upper x up :
  call_toUpperCase x = Ret up → toUpperCase up = up.
Proof.
  destruct x as [[| | |u| |]|]; try done.
  intros [= <-]. apply toUpperCase_idemp.
Qed.

(** X3.  A returned lead is a fixed point of the normalizer: given back as a
    fields map (as the webhook copy is), it normalizes to itself, with the
    time stamp of the second call. *)
Theorem normalizeLead_idempotent now now' src lead :
  normalizeLead now src = Ret lead →
  normalizeLead now' (lead_obj lead) = Ret (restamp now' lead).
Proof.
  intros Hret.
  destruct (lead_obj_lookup lead)
    as (Hn & He & Hp & Hpr & Hv & Hy & Hmk & Hmo & Ht & Hmi & Hex & Hin & Hre & Hla).
  unfold normalizeLead at 1.
  rewrite Hn, He, Hp, Hpr, Hv, Hy, Hmk, Hmo, Ht, Hmi, Hex, Hin, Hre, Hla.
  rewrite call_toUpperCase_string. cbn [bind].
  unfold normalizeLead in Hret.
  destruct (call_toUpperCase _) as [up|] eqn:Hup; [|done].
  cbn [bind] in Hret.
  remember (slice0 15 (digits (or_else (src !! "phoneRaw") (src !! "phone"))))
    as ph eqn:Hph.
  remember (safe (Some (VStr up))) as vn eqn:Hvn.
  injection Hret as <-.
  cbn [name email phone vin year make model trim mileage extColor intColor
       referrer landingPage submittedAt restamp].
  rewrite !safe_fixed.
  assert (safe (Some (VStr (toUpperCase vn))) = vn) as ->.
  { subst vn. cbn [safe]. rewrite toUpperCase_trim, trim_idemp. f_equal.
    by apply call_toUpperCase_upper in Hup. }
  assert (slice0 15 (digits (or_else None (Some (VStr ph)))) = ph) as ->.
  { unfold or_else. cbn [truthy]. unfold digits at 1. cbn [safe].
    rewrite filter_chars_trim by apply digit_not_ws.
    subst ph. rewrite filter_chars_all, slice0_idemp; [done|].
    apply all_chars_slice0, all_chars_filter. }
  done.
Qed.

End normalize_more.

(** ** The fields of a multipart body *)

Section parser_more.
Import JS TradeAppraisal JSFacts.

Lemma field_values_cons k p parts :
  field_values k (p :: parts)
  = match p with
    | FieldPart n v => if decide (n = k) then v :: field_values k parts
                       else field_values k parts
    | FilePart _ _ _ => field_values k parts
    end.
Proof. unfold field_values. destruct p; csimpl; [|done]. by case_decide. Qed.

(** The "field" listener keeps the last value of a name; the "file"
    listener never touches the fields. *)
Lemma listeners_fields parts st k :
  (foldl on_part st parts).1 !! k
  = match last (field_values k parts) with
    | Some v => Some (VStr v)
    | None => st.1 !! k
    end.
Proof.
  revert st. induction parts as [|p parts IH]; intros st; [done|].
  cbn [foldl]. rewrite IH, field_values_cons.
  destruct p as [n v|n info data]; cbn [on_part fst snd]; [|done].
  case_decide as Hn.
  - subst n. rewrite last_cons.
    destruct (last (field_values k parts)); [done|]. by rewrite lookup_insert_eq.
  - destruct (last (field_values k parts)); [done|]. by rewrite lookup_insert_ne.
Qed.

Variable Buffer_from : string → string → Buffer.
Variable Busboy : string → Buffer → option (list part).

Lemma parseMultipart_lookup event flds files :
  parseMultipart Buffer_from Busboy event = Some (flds, files) →
  ∃ parts,
    Busboy (contentType event) (body Buffer_from event) = Some parts
    ∧ ∀ k, flds !! k = VStr <$> last (field_values k parts).
Proof.
  unfold parseMultipart.
  destruct (Busboy _ _) as [parts|]; [|done]. intros [= Heq].
  exists parts. split; [done|]. intros k.
  assert (flds = (run_listeners parts).1) as -> by (by rewrite Heq).
  unfold run_listeners. rewrite listeners_fields.
  by destruct (last (field_values k parts)).
Qed.


Variable now : string.
Variable base64 : Buffer → string.
Variable JSON_parse : string → option fields.
Variable sg_send : Message.t → bool.
Variable encodeURIComponent : string → string.
Variable env : Env.

Local Abbreviation handler :=
  (handler now base64 Buffer_from Busboy JSON_parse sg_send encodeURIComponent env).

(** X5.  A multipart request never makes the handler throw: the fields Busboy
    gives are strings, so [vin] has [toUpperCase]. *)
Theorem multipart_handler_returns event :
  startsWith (contentType event) "multipart/form-data" = true →
  ∃ r, (handler event).2 = Ret r.
Proof.
  intros Hct. unfold TradeAppraisal.handler.
  case_decide; [by eexists|]. case_decide; [by eexists|].
  unfold parse_body. fold (contentType event). rewrite Hct.
  destruct (parseMultipart Buffer_from Busboy event) as [[rawData uploads]|] eqn:Hparse;
    [|by eexists].
  case_decide; [by eexists|].
  destruct (parseMultipart_lookup event rawData uploads Hparse) as (parts & _ & Hflds).
  destruct (proj1 (normalizeLead_returns now rawData)) as [lead ->].
  { rewrite Hflds. by destruct (last (field_values "vin" parts)). }
  destruct (_ || _); [by eexists|].
  destruct (sg_send _); [|by eexists].
  cbn [snd]. destruct (wantsJson event); by eexists.
Qed.

End parser_more.

(** ** Prefixes and substrings *)

Section includes_facts.
Import JS.

Lemma prefix_app_l p s : String.prefix p (p +:+ s) = true.
Proof.
  induction p as [|c p IH]; [by destruct s|].
  change (String c p +:+ s) with (String c (p +:+ s)). simpl.
  destruct (ascii_dec c c); done.
Qed.

Lemma prefix_refl p : String.prefix p p = true.
Proof. induction p as [|c p IH]; [done|]. simpl. by destruct (ascii_dec c c). Qed.



End includes_facts.

(** ** What the Form Intake Handler does and in what order *)

Section handler_more.
Import JS TradeAppraisal JSFacts.
Variable now : string.
Variable base64 : Buffer → string.
Variable Buffer_from : string → string → Buffer.
Variable Busboy : string → Buffer → option (list part).
Variable JSON_parse : string → option fields.
Variable sg_send : Message.t → bool.
Variable encodeURIComponent : string → string.
Variable env : Env.

Local Abbreviation parse_body := (parse_body Buffer_from Busboy JSON_parse).
Local Abbreviation handler :=
  (handler now base64 Buffer_from Busboy JSON_parse sg_send encodeURIComponent env).

Local Arguments str_or : simpl never.
Local Arguments safe : simpl never.
Local Arguments normalizeLead : simpl never.
Local Arguments toAttachments : simpl never.
Local Arguments buildEmailBodies : simpl never.
Local Arguments backup : simpl never.
Local Arguments JS.trim : simpl never.
Local Arguments split : simpl never.
Local Arguments wantsJson : simpl never.

Lemma safe_blank v :
  JS.trim (str_or (Some (safe v)) EmptyString) = EmptyString →
  safe v = EmptyString.
Proof.
  intros Hn.
  unfold str_or in Hn. case_decide as He; [done|].
  destruct v as [[]|]; try done. unfold safe in *. by rewrite trim_idemp in Hn.
Qed.

(** The handler past its guards: the request is a POST that parses, the
    honeypot is blank and the lead is complete. *)
Lemma handler_accepts event rawData uploads lead :
  Event.httpMethod event = "POST" →
  parse_body event = Some (rawData, uploads) →
  safe (rawData !! "company") = EmptyString →
  normalizeLead now rawData = Ret lead →
  name lead ≠ EmptyString → email lead ≠ EmptyString →
  phone lead ≠ EmptyString → vin lead ≠ EmptyString →
  handler event
  = let msg := sent_message base64 env lead rawData uploads in
    if sg_send msg then
      (SgSend msg :: backup encodeURIComponent env lead,
       if wantsJson event then
         Ret (Response.mk 200 headers
                (BJson (VObj [("ok", VBool true);
                              ("files", VNum (Z.of_nat (length (toAttachments base64 uploads))))])))
       else
         Ret (Response.mk 303 (<["Location" := "/success/index.html"]> headers)
                (BText EmptyString)))
    else ([SgSend msg], Ret (Response.mk 502 headers (BText "Failed to send lead"))).
Proof.
  intros Hpost Hparse Hcompany Hlead Hn He Hp Hv.
  unfold TradeAppraisal.handler. rewrite Hpost, Hparse, Hcompany, Hlead. simpl.
  rewrite !bool_decide_eq_false_2 by done. simpl.
  unfold sent_message, buildEmailBodies. cbn [text html].
  destruct (toAttachments base64 uploads); reflexivity.
Qed.

(** The guards of the handler: it answers without any effect, or throws
    without any effect, or the request is accepted. *)
Lemma handler_guards event :
  (∃ r, handler event = ([], Ret r)
        ∧ (Response.statusCode r = 200 ∨ Response.statusCode r = 400
           ∨ Response.statusCode r = 405)%Z)
  ∨ (∃ e, handler event = ([], Throw e))
  ∨ (∃ rawData uploads lead,
       Event.httpMethod event = "POST"
       ∧ parse_body event = Some (rawData, uploads)
       ∧ safe (rawData !! "company") = EmptyString
       ∧ normalizeLead now rawData = Ret lead
       ∧ name lead ≠ EmptyString ∧ email lead ≠ EmptyString
       ∧ phone lead ≠ EmptyString ∧ vin lead ≠ EmptyString).
Proof.
  unfold TradeAppraisal.handler.
  case_decide as Hopt; [left; eexists; split; [done|]; simpl; auto|].
  case_decide as Hpost; [left; eexists; split; [done|]; simpl; auto|].
  destruct (parse_body event) as [[rawData uploads]|] eqn:Hparse;
    [|left; eexists; split; [done|]; simpl; auto].
  case_decide as Hhoney; [left; eexists; split; [done|]; simpl; auto|].
  apply safe_blank in Hhoney.
  destruct (normalizeLead now rawData) as [lead|e] eqn:Hlead;
    [|right; left; by eexists].
  destruct (bool_decide (name lead = EmptyString)) eqn:Hn;
    [left; eexists; split; [done|]; simpl; auto|].
  destruct (bool_decide (email lead = EmptyString)) eqn:He;
    [left; eexists; split; [done|]; simpl; auto|].
  destruct (bool_decide (phone lead = EmptyString)) eqn:Hp;
    [left; eexists; split; [done|]; simpl; auto|].
  destruct (bool_decide (vin lead = EmptyString)) eqn:Hv;
    [left; eexists; split; [done|]; simpl; auto|].
  apply bool_decide_eq_false_1 in Hn, He, Hp, Hv.
  right; right. by exists rawData, uploads, lead.
Qed.

(** The webhook call of [backup] : none without a URL, else one POST to
    the URL, with the secret in the query when there is one. *)
Lemma backup_cases lead :
  (backup encodeURIComponent env lead = []
   ∧ (SHEETS_WEBHOOK_URL env = None ∨ SHEETS_WEBHOOK_URL env = Some EmptyString))
  ∨ (∃ url u,
       SHEETS_WEBHOOK_URL env = Some url ∧ url ≠ EmptyString
       ∧ backup encodeURIComponent env lead = [FetchPost u (BJson (lead_json lead))]
       ∧ (u = url
          ∨ ∃ secret, SHEETS_SHARED_SECRET env = Some secret
                      ∧ secret ≠ EmptyString
                      ∧ u = url +:+ "?secret=" +:+ encodeURIComponent secret)).
Proof.
  unfold backup. destruct (SHEETS_WEBHOOK_URL env) as [url|]; [|left; auto].
  case_decide as Hurl; [subst; left; auto|].
  right. eexists url, _. split; [done|]. split; [done|]. split; [done|].
  destruct (SHEETS_SHARED_SECRET env) as [secret|]; [|by left].
  case_decide; [by left|]. right. by exists secret.
Qed.

(** X6.  The order of the effects.  Whatever the request, the handler does one
    of four things: it answers 200, 400 or 405 with no effect; it throws
    with no effect; it calls SendGrid once, the call fails, and it answers
    502 with no webhook call; or it calls SendGrid once, the call succeeds,
    and it answers 200 or 303 after at most one POST to the configured
    webhook. *)
Theorem handler_effects event :
  (∃ r, handler event = ([], Ret r)
        ∧ (Response.statusCode r = 200 ∨ Response.statusCode r = 400
           ∨ Response.statusCode r = 405)%Z)
  ∨ (∃ e, handler event = ([], Throw e))
  ∨ (∃ msg r, handler event = ([SgSend msg], Ret r)
              ∧ sg_send msg = false ∧ Response.statusCode r = 502%Z)
  ∨ (∃ msg hook r,
       handler event = (SgSend msg :: hook, Ret r)
       ∧ sg_send msg = true
       ∧ (Response.statusCode r = 200 ∨ Response.statusCode r = 303)%Z
       ∧ (hook = []
          ∨ ∃ url u b, SHEETS_WEBHOOK_URL env = Some url ∧ url ≠ EmptyString
                       ∧ hook = [FetchPost u b] ∧ startsWith u url = true)).
Proof.
  destruct (handler_guards event)
    as [Hguard|[Hthrow|(rawData & uploads & lead & Hpost & Hparse & Hc & Hlead
                        & Hn & He & Hp & Hv)]]; [by left | by right; left |].
  right; right.
  rewrite (handler_accepts event rawData uploads lead) by done. cbn zeta.
  destruct (sg_send _) eqn:Hsend.
  - right.
    assert (backup encodeURIComponent env lead = []
            ∨ ∃ url u b, SHEETS_WEBHOOK_URL env = Some url ∧ url ≠ EmptyString
                         ∧ backup encodeURIComponent env lead = [FetchPost u b]
                         ∧ startsWith u url = true) as Hhook.
    { destruct (backup_cases lead) as [[-> _]|(url & u & Hurl & Hne & -> & Hu)];
        [by left|].
      right. exists url, u, (BJson (lead_json lead)).
      split; [done|]. split; [done|]. split; [done|].
      destruct Hu as [->|(secret & _ & _ & ->)];
        [apply prefix_refl | apply prefix_app_l]. }
    destruct (wantsJson event);
      (eexists _, _, _; split; [reflexivity|]; split; [done|];
       split; [simpl; auto|]);
      (destruct Hhook as [->|(url & u & b & ? & ? & -> & ?)];
       [by left | right; by exists url, u, b]).
  - left. eexists _, _. split; [reflexivity|]. done.
Qed.

Lemma handler_sent event msg :
  SgSend msg ∈ (handler event).1 →
  ∃ rawData uploads lead,
    Event.httpMethod event = "POST"
    ∧ parse_body event = Some (rawData, uploads)
    ∧ safe (rawData !! "company") = EmptyString
    ∧ normalizeLead now rawData = Ret lead
    ∧ name lead ≠ EmptyString ∧ email lead ≠ EmptyString
    ∧ phone lead ≠ EmptyString ∧ vin lead ≠ EmptyString
    ∧ msg = sent_message base64 env lead rawData uploads.
Proof.
  destruct (handler_guards event)
    as [(r & -> & _)|[(e & ->)|(rawData & uploads & lead & Hpost & Hparse & Hc
                                & Hlead & Hn & He & Hp & Hv)]];
    [by intros ?%elem_of_nil..|].
  rewrite (handler_accepts event rawData uploads lead) by done. cbn zeta.
  intros Hin. exists rawData, uploads, lead. repeat (split; [done|]).
  destruct (sg_send _); cbn [fst] in Hin.
  - apply elem_of_cons in Hin as [?|Hin]; [by simplify_eq|].
    destruct (backup_cases lead) as [[Hb _]|(url & u & _ & _ & Hb & _)];
      rewrite Hb in Hin; [by apply elem_of_nil in Hin|].
    by apply list_elem_of_singleton in Hin.
  - apply list_elem_of_singleton in Hin. by simplify_eq.
Qed.

(** X7.  Every message given to SendGrid is the message of a complete lead:
    the request is a POST that parses, its honeypot is blank, and name,
    email, phone and VIN of the lead are not blank. *)
Theorem handler_sends_complete_leads event msg :
  SgSend msg ∈ (handler event).1 →
  ∃ rawData uploads lead,
    Event.httpMethod event = "POST"
    ∧ parse_body event = Some (rawData, uploads)
    ∧ safe (rawData !! "company") = EmptyString
    ∧ normalizeLead now rawData = Ret lead
    ∧ name lead ≠ EmptyString ∧ email lead ≠ EmptyString
    ∧ phone lead ≠ EmptyString ∧ vin lead ≠ EmptyString
    ∧ msg = sent_message base64 env lead rawData uploads.
Proof. apply handler_sent. Qed.

Lemma all_chars_rev_app p s t :
  all_chars p s → all_chars p t → all_chars p (String.rev_app s t).
Proof.
  revert t. induction s as [|c s IH]; intros t; simpl; [done|].
  intros [Hc Hs] Ht. apply IH; simpl; auto.
Qed.

Lemma split_go_pieces c cur s :
  all_chars (λ d, negb (Ascii.eqb d c)) cur →
  Forall (all_chars (λ d, negb (Ascii.eqb d c))) (split_go c cur s).
Proof.
  revert cur. induction s as [|d s IH]; intros cur Hcur; cbn [split_go].
  - constructor; [|constructor]. by apply all_chars_rev_app.
  - destruct (Ascii.eqb d c) eqn:Hd.
    + constructor; [by apply all_chars_rev_app|]. by apply IH.
    + apply IH. simpl. by rewrite Hd.
Qed.

Lemma all_chars_trimStart p s : all_chars p s → all_chars p (trimStart s).
Proof.
  induction s as [|c s IH]; simpl; [done|]. intros [Hc Hs].
  destruct (is_ws c); simpl; auto.
Qed.

Lemma all_chars_trimEnd p s : all_chars p s → all_chars p (trimEnd s).
Proof.
  induction s as [|c s IH]; simpl; [done|]. intros [Hc Hs].
  specialize (IH Hs). destruct (trimEnd s); simpl in *; [|tauto].
  destruct (is_ws c); simpl; auto.
Qed.

(** X8.  The recipients of every message: no address is empty, none has white
    space around it, none contains a comma, whatever TO_EMAIL holds. *)
Theorem recipients_clean event msg :
  SgSend msg ∈ (handler event).1 →
  Forall (λ r, r ≠ EmptyString ∧ JS.trim r = r
               ∧ all_chars (λ d, negb (Ascii.eqb d ",")) r)
         (Message.to msg).
Proof.
  intros (rawData & uploads & lead & _ & _ & _ & _ & _ & _ & _ & _ & ->)%handler_sent.
  cbn [sent_message Message.to]. unfold filter_Boolean.
  apply Forall_forall. intros r [Hne Hin]%list_elem_of_filter.
  apply list_elem_of_fmap in Hin as (x & -> & Hx).
  split; [done|]. split; [apply trim_idemp|].
  apply all_chars_trimEnd, all_chars_trimStart.
  pose proof (split_go_pieces "," EmptyString
                (str_or (TO_EMAIL env) default_recipients) I) as Hall.
  by eapply Forall_forall in Hall.
Qed.


End handler_more.

(** ** The rows of buildEmailBodies *)

Section rows_more.
Import JS TradeAppraisal JSFacts.


Lemma spec_row_Some render (m : gmap string value) k r :
  spec_row render m k = Some r →
  ∃ x, m !! k = Some x ∧ nonblank (Some x) = true ∧ r = (k, render x).
Proof.
  unfold spec_row. destruct (m !! k) as [x|]; [|done].
  destruct (nonblank (Some x)) eqn:Hx; [|done]. intros [= <-]. by exists x.
Qed.





Lemma trade_row_value (m : gmap string value) k v :
  (k, v) ∈ rows_of m → ∃ x, m !! k = Some x ∧ v = to_String x.
Proof.
  rewrite trade_rows_spec. unfold spec_rows.
  intros [Hin|Hin]%elem_of_app;
    apply list_elem_of_omap in Hin as (k' & _ & Hrow);
    apply spec_row_Some in Hrow as (x & Hx & Hnb & Heq);
    injection Heq as -> ->; by exists x.
Qed.

(** X11.  The normalized values take precedence: for a key of the lead, the row
    of the email shows the lead's value, never the raw one. *)
Theorem normalized_values_win lead (rawData : gmap string value) k v s :
  (k, v) ∈ rows_of (lead_obj lead ∪ rawData) →
  lead_obj lead !! k = Some (VStr s) →
  v = s.
Proof.
  intros (x & Hx & ->)%trade_row_value Hlead.
  rewrite (lookup_union_Some_l _ _ _ _ Hlead) in Hx. by injection Hx as <-.
Qed.

End rows_more.

(** ** More on the Attachment Fetcher *)

Section fetcher_more.
Import JS SubmissionCreated.
Variable Buf : Type.
Variable byteLength : Buf → N.
Variable base64 : Buf → string.
Variable fetch : nat → string → outcome (HttpResponse Buf).

Local Abbreviation processAttachments := (processAttachments byteLength base64 fetch).
Local Abbreviation downloaded := (downloaded fetch).
Local Abbreviation fits := (fits byteLength fetch).
Local Abbreviation fit_step := (fit_step byteLength fetch).
Local Abbreviation first_fit := (first_fit byteLength fetch).
Local Abbreviation payload := (payload base64).
Local Abbreviation payload_if := (payload_if base64 fetch).
Local Abbreviation admitted_payloads := (admitted_payloads base64 fetch).
Local Abbreviation size_of := (size_of byteLength fetch).
Local Abbreviation sum_sizes := (sum_sizes byteLength fetch).

Lemma fits_size considered total i size :
  fits considered total i = Some size →
  size = size_of considered i
  ∧ (total + size ≤ MAX_TOTAL_BYTES)%N.
Proof.
  unfold SubmissionCreated.fits, SubmissionCreated.size_of.
  destruct (considered !! i) as [file|]; simpl; [|done].
  destruct (SubmissionCreated.downloaded fetch i file) as [buffer|]; simpl; [|done].
  case_decide as Hcaps; [|done]. intros [= <-]. by destruct Hcaps.
Qed.

(** The total the first fit counts is the bytes of the files it admits;
    it admits no file twice and none that is not in the order. *)
Lemma first_fit_total considered order :
  NoDup order →
  (first_fit considered order).1
  = sum_sizes considered (first_fit considered order).2
  ∧ NoDup (first_fit considered order).2
  ∧ ∀ i, i ∈ (first_fit considered order).2 → i ∈ order.
Proof.
  induction order as [|k order IH] using rev_ind; intros Hnd.
  - split; [done|]. split; [constructor|]. done.
  - apply NoDup_app in Hnd as (Hnd & Hfresh & _).
    destruct (IH Hnd) as (Htot & Hadm & Hsub).
    unfold SubmissionCreated.first_fit in *. rewrite foldl_app. simpl.
    set (sp := foldl (fit_step considered) _ order) in *.
    unfold SubmissionCreated.fit_step.
    destruct (fits considered sp.1 k) as [size|] eqn:Hfit; simpl.
    + apply fits_size in Hfit as [-> _].
      split; [rewrite sum_sizes_app, Htot; simpl; lia|]. split.
      * apply NoDup_app. split; [done|]. split; [|apply NoDup_singleton].
        intros i Hi ->%list_elem_of_singleton.
        apply (Hfresh k); [by apply Hsub | by apply list_elem_of_singleton].
      * intros i [?|?]%elem_of_app; apply elem_of_app; auto.
    + split; [done|]. split; [done|].
      intros i Hi. apply elem_of_app. left. by apply Hsub.
Qed.

Lemma length_omap_le {A B} (f : A → option B) (l : list A) :
  length (omap f l) ≤ length l.
Proof.
  induction l as [|x l IH]; csimpl; [done|]. destruct (f x); simpl; lia.
Qed.

(** X12.  Whatever the order of completion, the payloads returned are those of
    a set of files that together are within MAX_TOTAL_BYTES, and they are
    no more than MAX_ATTACH and no more than the files given. *)
Theorem processAttachments_bounds order files :
  order ≡ₚ seq 0 (length (take MAX_ATTACH files)) →
  ∃ admitted,
    processAttachments order files
    = Some (Ret (admitted_payloads (take MAX_ATTACH files) admitted))
    ∧ NoDup admitted
    ∧ (sum_sizes (take MAX_ATTACH files) admitted ≤ MAX_TOTAL_BYTES)%N
    ∧ length (admitted_payloads (take MAX_ATTACH files) admitted) ≤ MAX_ATTACH
    ∧ length (admitted_payloads (take MAX_ATTACH files) admitted) ≤ length files.
Proof.
  intros Hperm.
  exists (first_fit (take MAX_ATTACH files) order).2.
  split; [by apply processAttachments_refines|].
  destruct (first_fit_total (take MAX_ATTACH files) order) as (Htot & Hnd & _).
  { rewrite Hperm. apply NoDup_seq. }
  split; [done|]. split.
  { rewrite <-Htot. apply first_fit_sound. }
  unfold SubmissionCreated.admitted_payloads.
  pose proof (length_omap_le
                (payload_if (take MAX_ATTACH files)
                   (first_fit (take MAX_ATTACH files) order).2)
                (seq 0 (length (take MAX_ATTACH files)))) as Hle.
  rewrite length_seq in Hle.
  pose proof (length_take files MAX_ATTACH) as Htake.
  split; lia.
Qed.

Lemma list_omap_ext_elem {A B} (f g : A → option B) (l : list A) :
  (∀ x, x ∈ l → f x = g x) → omap f l = omap g l.
Proof.
  induction l as [|x l IH]; intros Hfg; csimpl; [done|].
  rewrite (Hfg x) by (by left). rewrite IH; [done|].
  intros y Hy. apply Hfg. by right.
Qed.

Lemma admitted_payloads_retrieved considered adm1 adm2 :
  (∀ j, j < length considered →
        is_Some (considered !! j ≫= downloaded j) → j ∈ adm1 ↔ j ∈ adm2) →
  admitted_payloads considered adm1 = admitted_payloads considered adm2.
Proof.
  intros Hiff. unfold SubmissionCreated.admitted_payloads.
  assert (∀ l : list nat, (∀ j, j ∈ l → j < length considered) →
               omap (payload_if considered adm1) l
               = omap (payload_if considered adm2) l) as Hext.
  { induction l as [|x l IH]; intros Hl; csimpl; [done|].
    rewrite IH by (intros j Hj; apply Hl; by right).
    assert (x < length considered) as Hx by (apply Hl; by left).
    assert (payload_if considered adm1 x = payload_if considered adm2 x) as ->; [|done].
    unfold SubmissionCreated.payload_if.
    destruct (considered !! x ≫= downloaded x) as [b|] eqn:Hdl.
    - specialize (Hiff x Hx (ltac:(by eexists))).
      destruct (decide (x ∈ adm1)) as [H1|H1], (decide (x ∈ adm2)) as [H2|H2];
        try done; by apply Hiff in H1 || apply Hiff in H2.
    - destruct (considered !! x) as [file|]; simpl in *;
        [rewrite Hdl|]; by repeat case_decide. }
  apply Hext. intros j Hj%elem_of_seq. lia.
Qed.

(** X13.  When the batch is within the caps, each file no larger than
    MAX_EACH_BYTES and all together no larger than MAX_TOTAL_BYTES, the
    order in which the downloads complete does not matter: the result is
    the payloads of all the files retrieved, in input order. *)
Theorem processAttachments_within_caps order files :
  order ≡ₚ seq 0 (length (take MAX_ATTACH files)) →
  (∀ j, (size_of (take MAX_ATTACH files) j ≤ MAX_EACH_BYTES)%N) →
  (sum_sizes (take MAX_ATTACH files)
     (seq 0 (length (take MAX_ATTACH files))) ≤ MAX_TOTAL_BYTES)%N →
  processAttachments order files
  = Some (Ret (omap (λ j, file ← take MAX_ATTACH files !! j;
                          buffer ← downloaded j file;
                          Some (payload file buffer))
                 (seq 0 (length (take MAX_ATTACH files))))).
Proof.
  intros Hperm Heach Hall.
  set (considered := take MAX_ATTACH files) in *.
  rewrite processAttachments_refines by done. fold considered.
  destruct (first_fit_all Buf byteLength fetch considered order) as [_ Hadm]; try done.
  { rewrite Hperm. apply NoDup_seq. }
  { intros j Hj. rewrite Hperm in Hj. apply elem_of_seq in Hj. lia. }
  rewrite (admitted_payloads_retrieved considered _ (seq 0 (length considered))).
  - unfold SubmissionCreated.admitted_payloads. do 2 f_equal.
    apply list_omap_ext_elem. intros j Hj.
    unfold SubmissionCreated.payload_if. by rewrite decide_True.
  - intros j Hj Hsome. split; [intros _; apply elem_of_seq; lia|].
    intros _. apply Hadm; [|done]. rewrite Hperm. apply elem_of_seq. lia.
Qed.

End fetcher_more.

(** ** The Submission Relay Handler *)

Section relay_facts.
Import JS SubmissionCreated Relay.
Variable now : string.
Variable env : Env.
Variable JSON_parse_payload : string → option (option Payload).
Variable sg_send : Message.t → bool.
Variable encodeURIComponent : string → string.
Variable Buf : Type.
Variable byteLength : Buf → N.
Variable base64 : Buf → string.
Variable fetch : nat → string → outcome (HttpResponse Buf).

Local Abbreviation handler :=
  (handler now env JSON_parse_payload sg_send encodeURIComponent byteLength base64 fetch).
Local Abbreviation triggerBackupWebhook :=
  (triggerBackupWebhook now env encodeURIComponent).

Lemma split_go_nonempty c cur s : split_go c cur s ≠ [].
Proof.
  revert cur. induction s as [|d s IH]; intros cur; cbn [split_go]; [done|].
  destruct (Ascii.eqb d c); [done|apply IH].
Qed.

Lemma TO_EMAILS_nonempty : length (TO_EMAILS env) ≠ 0.
Proof.
  unfold TO_EMAILS, split.
  pose proof (split_go_nonempty "," EmptyString
    (str_or (TO_EMAIL env)
       "steve@quirkcars.com,gmcintosh@quirkcars.com,lmendez@quirkcars.com")) as H.
  by destruct (split_go _ _ _).
Qed.

(** X14.  The configuration error: the handler answers 500 exactly when the API
    key or the sender is missing, and then without any effect and
    whatever the body; the list of recipients is never empty, so an empty
    TO_EMAIL is not such an error. *)
Theorem relay_config_error order event_body :
  (missing (SENDGRID_API_KEY env) = true ∨ missing (FROM_EMAIL env) = true
   ↔ ∃ fx r, handler order event_body = Some (fx, r) ∧ statusCode r = 500%Z)
  ∧ (∀ fx r, handler order event_body = Some (fx, r) → statusCode r = 500%Z → fx = [])
  ∧ length (TO_EMAILS env) ≠ 0.
Proof.
  pose proof TO_EMAILS_nonempty as Hto.
  unfold Relay.handler. rewrite (bool_decide_eq_false_2 _ Hto), orb_false_r.
  destruct (missing (SENDGRID_API_KEY env) || missing (FROM_EMAIL env)) eqn:Hmiss.
  - split; [|split; [|done]].
    + split; [intros _; by eexists _, _|]. intros _. by apply orb_true_iff.
    + by intros fx r [= <- <-].
  - apply orb_false_iff in Hmiss as [Hk Hf]. rewrite Hk, Hf.
    assert (∀ fx r,
      match JSON_parse_payload (str_or event_body "{}") with
      | Some payload =>
          match awaited byteLength base64 fetch order (default [] (payload ≫= files)) with
          | Some attachments =>
              if sg_send (message env (default ∅ (payload ≫= data))
                            (default [] (payload ≫= files)) attachments)
              then Some (SgSend (message env (default ∅ (payload ≫= data))
                                   (default [] (payload ≫= files)) attachments)
                         :: triggerBackupWebhook (default ∅ (payload ≫= data))
                              (default [] (payload ≫= files)),
                         mkResponse 200 "ok")
              else Some ([SgSend (message env (default ∅ (payload ≫= data))
                                    (default [] (payload ≫= files)) attachments)],
                         mkResponse 502 "Failed to send email via provider.")
          | None => None
          end
      | None => Some ([], mkResponse 400 "Invalid webhook payload")
      end = Some (fx, r) → statusCode r ≠ 500%Z) as Hno.
    { intros fx r.
      destruct (JSON_parse_payload _) as [payload|]; [|by intros [= <- <-]].
      destruct (awaited _ _ _ _ _) as [attachments|]; [|done].
      destruct (sg_send _); by intros [= <- <-]. }
    split; [|split; [|done]].
    + split; [by intros [?|?]|]. intros (fx & r & Hh & Hr). by apply Hno in Hh.
    + intros fx r Hh Hr. by apply Hno in Hh.
Qed.




(** X16.  The backup webhook is called only after the email was sent: a POST
    among the effects means the answer is 200 and the webhook is
    configured.  The object it posts has the time of the call under [_ts],
    the URLs of all the files under [fileUrls], whatever the submission had
    under these two names, and every other field of the submission as it
    came. *)
Theorem relay_backup order event_body fx r url lead :
  handler order event_body = Some (fx, r) →
  FetchPost url lead ∈ fx →
  statusCode r = 200%Z
  ∧ missing (SHEETS_WEBHOOK_URL env) = false
  ∧ ∃ payload,
      JSON_parse_payload (str_or event_body "{}") = Some payload
      ∧ lead !! "_ts" = Some (VStr now)
      ∧ lead !! "fileUrls"
        = Some (VArr ((λ f, VStr (Descriptor.url f))
                      <$> default [] (payload ≫= files)))
      ∧ ∀ k, k ≠ "_ts" → k ≠ "fileUrls" →
             lead !! k = default ∅ (payload ≫= data) !! k.
Proof.
  unfold Relay.handler.
  destruct (_ || _); [intros [= <- <-] Hin; by apply elem_of_nil in Hin|].
  destruct (JSON_parse_payload _) as [payload|];
    [|intros [= <- <-] Hin; by apply elem_of_nil in Hin].
  destruct (awaited _ _ _ _ _) as [atts|]; [|done].
  destruct (sg_send _).
  - intros [= <- <-] Hin. apply elem_of_cons in Hin as [?|Hin]; [done|].
    unfold Relay.triggerBackupWebhook in Hin.
    destruct (missing (SHEETS_WEBHOOK_URL env)); [by apply elem_of_nil in Hin|].
    apply list_elem_of_singleton in Hin. injection Hin as -> ->.
    split; [done|]. split; [done|]. exists payload. split; [done|].
    split; [by rewrite lookup_insert_eq|].
    split; [by rewrite lookup_insert_ne, lookup_insert_eq|].
    intros k H1 H2. by rewrite !lookup_insert_ne.
  - intros [= <- <-] Hin. apply elem_of_cons in Hin as [?|Hin]; [done|].
    by apply elem_of_nil in Hin.
Qed.

End relay_facts.

(** ** The subject of the relayed email *)

Section subject_facts.
Import JS SubmissionCreated JSFacts.






End subject_facts.

(** ** assets/app.js : validVin *)

Section app_facts.
Import JS App JSFacts.

Lemma every_all p s : every p s = true ↔ all_chars p s.
Proof.
  induction s as [|c s IH]; simpl; [done|].
  rewrite andb_true_iff, IH. done.
Qed.

Lemma length_map_chars f s : String.length (map_chars f s) = String.length s.
Proof. induction s as [|c s IH]; simpl; [done|]. by rewrite IH. Qed.

Lemma all_chars_map_chars p f s :
  all_chars p (map_chars f s) ↔ all_chars (λ c, p (f c)) s.
Proof. induction s as [|c s IH]; simpl; [done|]. by rewrite IH. Qed.

Lemma vin_char_not_ws c : vin_char c = true → is_ws c = false.
Proof. destruct c as [[] [] [] [] [] [] [] []]; by vm_compute. Qed.

Lemma vin_char_upper c : vin_char c = true → upper c = c.
Proof. destruct c as [[] [] [] [] [] [] [] []]; by vm_compute. Qed.


Lemma all_chars_impl (p q : ascii → bool) s :
  (∀ c, p c = true → q c = true) → all_chars p s → all_chars q s.
Proof. intros Hpq. induction s as [|c s IH]; simpl; [done|]. intros [? ?]. auto. Qed.

Lemma vin_pattern_spec s :
  vin_pattern s = true ↔ String.length s = 17 ∧ all_chars vin_char s.
Proof.
  unfold vin_pattern. rewrite andb_true_iff, Nat.eqb_eq, every_all. done.
Qed.

Lemma validVin_true v :
  validVin v = true
  ↔ String.length (JS.trim v) = 17 ∧ all_chars (λ c, vin_char (upper c)) (JS.trim v).
Proof.
  unfold validVin. case_decide as Hv.
  - subst v. split; [done|]. by intros [? _].
  - rewrite vin_pattern_spec. unfold toUpperCase.
    by rewrite length_map_chars, all_chars_map_chars.
Qed.

Lemma validVin_normal v : validVin (toUpperCase (JS.trim v)) = validVin v.
Proof.
  unfold validVin.
  rewrite <-(toUpperCase_trim (JS.trim v)), trim_idemp, toUpperCase_idemp.
  destruct (decide (v = EmptyString)) as [->|Hv]; [done|].
  case_decide as Hup; [|done]. by rewrite Hup.
Qed.




(** X20.  The two readings of the VIN input.  Whenever [doDecode] accepts its
    reading, the "input" listener reads the same string and accepts it
    too.  The converse fails: the listener drops white space inside the
    value and [doDecode] does not, so the listener can start a decoding
    that [doDecode] refuses. *)
Theorem doDecode_accepts_less :
  (∀ value, validVin (doDecode_vin value) = true →
            input_vin value = doDecode_vin value
            ∧ validVin (input_vin value) = true)
  ∧ ∃ value, validVin (input_vin value) = true
             ∧ validVin (doDecode_vin value) = false.
Proof.
  split.
  - intros value Hv.
    assert (input_vin value = doDecode_vin value) as Heq.
    { unfold doDecode_vin in Hv. rewrite validVin_normal in Hv.
      apply validVin_true in Hv as [_ Hall].
      unfold input_vin, doDecode_vin.
      rewrite <-(filter_chars_trim (λ c, negb (is_ws c)) (toUpperCase value))
        by (by intros c ->%negb_true_iff).
      rewrite <-toUpperCase_trim. apply filter_chars_all.
      unfold toUpperCase. apply all_chars_map_chars.
      eapply all_chars_impl; [|exact Hall].
      intros c Hc. simpl. by rewrite (vin_char_not_ws _ Hc). }
    by rewrite Heq.
  - exists "1HGCM826 33A004352". by vm_compute.
Qed.

End app_facts.

(** ** Instances *)

Lemma escape_injective_witness :
  TradeAppraisal.escape "a<b" = TradeAppraisal.escape "a<b"
  ∧ "a<b" = "a<b".
Proof.
  split; [reflexivity|].
  apply (escape_injective "a<b" "a<b"). reflexivity.
Defined.

Lemma normalizeLead_idempotent_witness :
  TradeAppraisal.normalizeLead Examples.now complete_fields = JS.Ret al_lead
  ∧ TradeAppraisal.normalizeLead "2026-02-01T00:00:00.000Z"
      (TradeAppraisal.lead_obj al_lead)
    = JS.Ret (restamp "2026-02-01T00:00:00.000Z" al_lead).
Proof.
  assert (TradeAppraisal.normalizeLead Examples.now complete_fields = JS.Ret al_lead)
    as Hlead by (vm_compute; reflexivity).
  split; [exact Hlead|].
  exact (normalizeLead_idempotent Examples.now "2026-02-01T00:00:00.000Z"
           complete_fields al_lead Hlead).
Defined.


Lemma multipart_handler_returns_witness :
  JS.startsWith (TradeAppraisal.contentType Examples.multipart_event)
    "multipart/form-data" = true
  ∧ ∃ r,
      (TradeAppraisal.handler Examples.now Examples.base64 Examples.Buffer_from
         (Examples.Busboy_is Examples.mixed_parts) Examples.no_JSON Examples.sg_send
         Examples.encodeURIComponent Examples.env Examples.multipart_event).2
      = JS.Ret r.
Proof.
  assert (JS.startsWith (TradeAppraisal.contentType Examples.multipart_event)
            "multipart/form-data" = true) as Hct by (vm_compute; reflexivity).
  split; [exact Hct|].
  apply multipart_handler_returns. exact Hct.
Defined.

Lemma handler_sends_complete_leads_witness :
  TradeAppraisal.SgSend (sent_message Examples.base64 Examples.env al_lead complete_fields [])
  ∈ (TradeAppraisal.handler Examples.now Examples.base64 Examples.Buffer_from
       Examples.no_Busboy (Examples.JSON_is complete_fields) Examples.sg_send
       Examples.encodeURIComponent Examples.env Examples.json_event).1
  ∧ ∃ rawData uploads lead,
      TradeAppraisal.normalizeLead Examples.now rawData = JS.Ret lead
      ∧ TradeAppraisal.name lead ≠ EmptyString
      ∧ sent_message Examples.base64 Examples.env al_lead complete_fields []
        = sent_message Examples.base64 Examples.env lead rawData uploads.
Proof.
  assert (TradeAppraisal.SgSend (sent_message Examples.base64 Examples.env al_lead complete_fields [])
          ∈ (TradeAppraisal.handler Examples.now Examples.base64 Examples.Buffer_from
               Examples.no_Busboy (Examples.JSON_is complete_fields) Examples.sg_send
               Examples.encodeURIComponent Examples.env Examples.json_event).1)
    as Hin.
  { assert ((TradeAppraisal.handler Examples.now Examples.base64 Examples.Buffer_from
               Examples.no_Busboy (Examples.JSON_is complete_fields) Examples.sg_send
               Examples.encodeURIComponent Examples.env Examples.json_event).1
            = [TradeAppraisal.SgSend (sent_message Examples.base64 Examples.env al_lead
                         complete_fields [])]) as -> by (vm_compute; reflexivity).
    apply list_elem_of_here. }
  split; [exact Hin|].
  pose proof Hin as Hsent. apply handler_sends_complete_leads in Hsent.
  destruct Hsent
    as (rawData & uploads & lead & _ & _ & _ & Hlead & Hname & _ & _ & _ & Hmsg).
  exists rawData, uploads, lead. split; [exact Hlead|]. split; [exact Hname|exact Hmsg].
Defined.

Lemma recipients_clean_witness :
  let env := TradeAppraisal.mkEnv (Some " a@quirkcars.com, ,b@quirkcars.com,")
               (Some "sales@quirkcars.com") None None in
  TradeAppraisal.SgSend (sent_message Examples.base64 env al_lead complete_fields [])
  ∈ (TradeAppraisal.handler Examples.now Examples.base64 Examples.Buffer_from
       Examples.no_Busboy (Examples.JSON_is complete_fields) Examples.sg_send
       Examples.encodeURIComponent env Examples.json_event).1
  ∧ TradeAppraisal.Message.to
      (sent_message Examples.base64 env al_lead complete_fields [])
    = ["a@quirkcars.com"; "b@quirkcars.com"]
  ∧ Forall (λ r, r ≠ EmptyString ∧ JS.trim r = r
                 ∧ JS.all_chars (λ d, negb (Ascii.eqb d ",")) r)
      (TradeAppraisal.Message.to
         (sent_message Examples.base64 env al_lead complete_fields [])).
Proof.
  intros env.
  assert (TradeAppraisal.SgSend (sent_message Examples.base64 env al_lead complete_fields [])
          ∈ (TradeAppraisal.handler Examples.now Examples.base64 Examples.Buffer_from
               Examples.no_Busboy (Examples.JSON_is complete_fields) Examples.sg_send
               Examples.encodeURIComponent env Examples.json_event).1)
    as Hin.
  { assert ((TradeAppraisal.handler Examples.now Examples.base64 Examples.Buffer_from
               Examples.no_Busboy (Examples.JSON_is complete_fields) Examples.sg_send
               Examples.encodeURIComponent env Examples.json_event).1
            = [TradeAppraisal.SgSend (sent_message Examples.base64 env al_lead
                         complete_fields [])]) as -> by (vm_compute; reflexivity).
    apply list_elem_of_here. }
  split; [exact Hin|]. split; [vm_compute; reflexivity|].
  apply recipients_clean in Hin. exact Hin.
Defined.

Lemma normalized_values_win_witness :
  let rawData : gmap string JS.value :=
    <["name" := JS.VStr "  Al  "]> (<["title" := JS.VStr "clean"]> complete_fields) in
  ("name", "Al") ∈ TradeAppraisal.rows_of (TradeAppraisal.lead_obj al_lead ∪ rawData)
  ∧ TradeAppraisal.lead_obj al_lead !! "name" = Some (JS.VStr "Al")
  ∧ "Al" = "Al".
Proof.
  intros rawData.
  assert (("name", "Al")
          ∈ TradeAppraisal.rows_of (TradeAppraisal.lead_obj al_lead ∪ rawData)) as Hin
    by (apply (bool_decide_unpack _); vm_compute; exact I).
  assert (TradeAppraisal.lead_obj al_lead !! "name" = Some (JS.VStr "Al")) as Hk
    by (vm_compute; reflexivity).
  split; [exact Hin|]. split; [exact Hk|].
  exact (normalized_values_win al_lead rawData "name" "Al" "Al" Hin Hk).
Defined.

Lemma processAttachments_bounds_witness :
  [2; 1; 0] ≡ₚ seq 0 (length (take SubmissionCreated.MAX_ATTACH FetchExamples.three))
  ∧ ∃ attachments,
      SubmissionCreated.processAttachments FetchExamples.byteLength
        FetchExamples.base64 RelayExamples.fetch [2; 1; 0] FetchExamples.three
      = Some (JS.Ret attachments)
      ∧ length attachments ≤ SubmissionCreated.MAX_ATTACH.
Proof.
  assert ([2; 1; 0] ≡ₚ seq 0 (length (take SubmissionCreated.MAX_ATTACH FetchExamples.three)))
    as Hperm by (apply (bool_decide_unpack _); vm_compute; exact I).
  split; [exact Hperm|].
  destruct (processAttachments_bounds _ FetchExamples.byteLength FetchExamples.base64
              RelayExamples.fetch _ _ Hperm)
    as (admitted & Hret & _ & _ & Hle & _).
  eexists. split; [exact Hret|exact Hle].
Defined.

Lemma processAttachments_within_caps_witness :
  [2; 1; 0] ≡ₚ seq 0 (length (take SubmissionCreated.MAX_ATTACH FetchExamples.three))
  ∧ SubmissionCreated.processAttachments FetchExamples.byteLength
      FetchExamples.base64 RelayExamples.fetch [2; 1; 0] FetchExamples.three
    = Some (JS.Ret [FetchExamples.sent "a.jpg"; FetchExamples.sent "c.jpg"]).
Proof.
  assert ([2; 1; 0] ≡ₚ seq 0 (length (take SubmissionCreated.MAX_ATTACH FetchExamples.three)))
    as Hperm by (apply (bool_decide_unpack _); vm_compute; exact I).
  split; [exact Hperm|].
  rewrite (processAttachments_within_caps _ FetchExamples.byteLength
             FetchExamples.base64 RelayExamples.fetch _ _ Hperm).
  - vm_compute. reflexivity.
  - intros [|[|[|j]]]; vm_compute; discriminate.
  - vm_compute. discriminate.
Defined.


Lemma relay_backup_witness :
  let lead : SubmissionCreated.fields :=
    <["_ts" := JS.VStr RelayExamples.now]>
      (<["fileUrls" := JS.VArr ((λ f, JS.VStr (SubmissionCreated.Descriptor.url f))
                                <$> FetchExamples.three)]> RelayExamples.data) in
  let fx :=
    [Relay.SgSend
       (Relay.message RelayExamples.env RelayExamples.data FetchExamples.three
          [FetchExamples.sent "a.jpg"; FetchExamples.sent "c.jpg"]);
     Relay.FetchPost "https://sheets.example/hook?secret=s3cret" lead] in
  Relay.handler RelayExamples.now RelayExamples.env
    (RelayExamples.JSON_is RelayExamples.payload) RelayExamples.sg_send
    RelayExamples.encodeURIComponent FetchExamples.byteLength FetchExamples.base64
    RelayExamples.fetch [2; 1; 0] (Some "{...}")
  = Some (fx, Relay.mkResponse 200 "ok")
  ∧ Relay.FetchPost "https://sheets.example/hook?secret=s3cret" lead ∈ fx
  ∧ RelayExamples.data !! "_ts" = Some (JS.VStr "yesterday")
  ∧ lead !! "_ts" = Some (JS.VStr RelayExamples.now).
Proof.
  intros lead fx.
  assert (Relay.handler RelayExamples.now RelayExamples.env
            (RelayExamples.JSON_is RelayExamples.payload) RelayExamples.sg_send
            RelayExamples.encodeURIComponent FetchExamples.byteLength
            FetchExamples.base64 RelayExamples.fetch [2; 1; 0] (Some "{...}")
          = Some (fx, Relay.mkResponse 200 "ok")) as Hh by (vm_compute; reflexivity).
  assert (Relay.FetchPost "https://sheets.example/hook?secret=s3cret" lead ∈ fx) as Hin
    by (apply list_elem_of_further, list_elem_of_here).
  split; [exact Hh|]. split; [exact Hin|]. split; [vm_compute; reflexivity|].
  destruct (relay_backup RelayExamples.now RelayExamples.env
              (RelayExamples.JSON_is RelayExamples.payload) RelayExamples.sg_send
              RelayExamples.encodeURIComponent N FetchExamples.byteLength
              FetchExamples.base64 RelayExamples.fetch [2; 1; 0] (Some "{...}")
              fx _ _ lead Hh Hin) as (_ & _ & payload & _ & Hts & _).
  exact Hts.
Defined.


